(** * private_gpt/ui/ui.py: the chat orchestration core of [PrivateGptUi]

    A shallow embedding of [Source.curate_sources] and of [PrivateGptUi._chat]
    with its two local functions [yield_deltas] and [build_history], followed
    by the properties of the history compactor, the source curator, the mode
    dispatcher and the response streamer. *)

From Stdlib Require Import ZArith.
From Stdlib Require DecimalString.
From stdpp Require Import base decidable option list strings gmap.

(** ** Strings *)

Module PyStr.

(** The line feed, written [\n] in the Python literals. *)
Definition LF : string := String (Ascii.ascii_of_nat 10) EmptyString.

(** [f"{index}"] for a non-negative [int]. *)
Definition of_nat (n : nat) : string :=
  DecimalString.NilZero.string_of_uint (Nat.to_uint n).

(** [s.split(sep)] for a non-empty [sep] (Python raises [ValueError] on the
    empty separator; the only call site passes the constant
    [SOURCES_SEPARATOR]).  The scan is left to right: [skip] counts the
    characters of a separator just matched that are still to be consumed,
    [cur] is the piece being collected. *)
Fixpoint split_go (sep : string) (skip : nat) (cur s : string) : list string :=
  match s with
  | EmptyString => [cur]
  | String c s' =>
      match skip with
      | S k => split_go sep k cur s'
      | O =>
          if String.prefix sep s
          then cur :: split_go sep (Nat.pred (String.length sep)) EmptyString s'
          else split_go sep O (cur +:+ String c EmptyString) s'
      end
  end.

Definition split (s sep : string) : list string :=
  split_go sep O EmptyString s.

(** [l[0]] on a list that [split] returned (never empty). *)
Definition first (l : list string) : string := hd EmptyString l.

(** The text before the first occurrence of [sep], the whole text when
    there is none. *)
Fixpoint before (sep s : string) : string :=
  match s with
  | EmptyString => EmptyString
  | String c s' =>
      if String.prefix sep s then EmptyString else String c (before sep s')
  end.

(** [sep.join(l)]. *)
Fixpoint join (sep : string) (l : list string) : string :=
  match l with
  | [] => EmptyString
  | [x] => x
  | x :: rest => x +:+ sep +:+ join sep rest
  end.

End PyStr.

(** ** Data *)

Inductive MessageRole := SYSTEM | USER | ASSISTANT.

Record ChatMessage := mkChatMessage { content : string; role : MessageRole }.

Global Instance MessageRole_eq_dec : EqDecision MessageRole.
Proof. solve_decision. Defined.

Global Instance ChatMessage_eq_dec : EqDecision ChatMessage.
Proof. solve_decision. Defined.

(** An ingested document: its identifier and its optional metadata dict
    (the two keys read here hold strings). *)
Record IngestedDoc := mkIngestedDoc {
  doc_id : string;
  doc_metadata : option (gmap string string)
}.

(** A retrieved chunk: the fields [curate_sources] reads. *)
Record Chunk := mkChunk { chunk_text : string; document : IngestedDoc }.

Record ContextFilter := mkContextFilter { docs_ids : list string }.

(** [class Source(BaseModel)], frozen: equality and hash are over the three
    fields. *)
Record Source := mkSource { file : string; page : string; text : string }.

Global Instance Source_eq_dec : EqDecision Source.
Proof. solve_decision. Defined.

Global Instance Source_countable : Countable Source.
Proof.
  refine (inj_countable' (λ s, (file s, page s, text s))
            (λ t, mkSource t.1.1 t.1.2 t.2) _).
  by intros [].
Defined.

(** What the generation stream delivers: a [str], a [ChatResponse] with its
    optional [delta], or an object of another type. *)
Inductive Delta :=
| DeltaStr (s : string)
| DeltaChatResponse (delta : option string)
| DeltaOther.

Record CompletionGen := mkCompletionGen {
  response : list Delta;
  sources : option (list Chunk)
}.

Definition SOURCES_SEPARATOR : string :=
  PyStr.LF +:+ PyStr.LF +:+ " Sources: " +:+ PyStr.LF.

Definition MODES : list string :=
  ["Query Files"; "Search Files"; "LLM Chat (no context from files)"].

(** ** Source.curate_sources *)

(** [list(dict.fromkeys(l).keys())]: the keys in insertion order, a key seen
    again keeps its first position. *)
Definition dict_fromkeys_keys {A} `{EqDecision A} (l : list A) : list A :=
  foldl (λ keys k, if decide (k ∈ keys) then keys else keys ++ [k]) [] l.

(** [doc_metadata.get(key, "-") if doc_metadata else "-"]: [None] and the
    empty dict are both falsy. *)
Definition metadata_get (doc_metadata : option (gmap string string))
    (key : string) : string :=
  match doc_metadata with
  | None => "-"
  | Some m => if decide (m = ∅) then "-" else default "-" (m !! key)
  end.

Definition source_of_chunk (chunk : Chunk) : Source :=
  let doc_metadata := doc_metadata (document chunk) in
  let file_name := metadata_get doc_metadata "file_name" in
  let page_label := metadata_get doc_metadata "page_label" in
  mkSource file_name page_label (chunk_text chunk).

Definition curate_sources (sources : list Chunk) : list Source :=
  foldl (λ curated_sources chunk,
           dict_fromkeys_keys (curated_sources ++ [source_of_chunk chunk]))
        [] sources.

(** ** build_history *)

(** A history entry is the two-element list [[user text, assistant text]]. *)
Definition Interaction : Type := string * string.

(** The two messages one history entry contributes. *)
Definition interaction_messages (interaction : Interaction) : list ChatMessage :=
  [ mkChatMessage (fst interaction) USER;
    mkChatMessage
      (* Remove from history content the Sources information *)
      (PyStr.first (PyStr.split (snd interaction) SOURCES_SEPARATOR))
      ASSISTANT ].

(** The local [history_messages]: the per-entry lists chained into one. *)
Definition history_messages (history : list Interaction) : list ChatMessage :=
  concat (map interaction_messages history).

(** [return history_messages[:20]]. *)
Definition build_history (history : list Interaction) : list ChatMessage :=
  take 20 (history_messages history).

(** ** The generator monad of [_chat]

    [_chat] is a generator method: it reads the fields of [self], calls the
    three injected services, yields snapshots and may raise.  A computation
    takes the object's fields and returns its outcome, the fields afterwards
    and the events it performed, oldest first. *)

(** The fields of [PrivateGptUi] that the chat path and the handlers of the
    file list use. *)
Record PrivateGptUi := mkPrivateGptUi {
  mode : string;
  _system_prompt : string;
  _selected_filename : option string
}.

Inductive PyExn :=
| TypeError        (* subscript of [None] *)
| KeyError (key : string).

Inductive Event :=
| ListIngested
| StreamChat (messages : list ChatMessage) (use_context : bool)
             (context_filter : option ContextFilter)
| RetrieveRelevant (text : string) (limit prev_next_chunks : Z)
| Yield (snapshot : string)
| Sleep.

(** The injected services, as the values they return (a service that fails
    raises through [_chat] unchanged; such runs are not part of the model). *)
Record Services := mkServices {
  list_ingested : list IngestedDoc;
  stream_chat : list ChatMessage → bool → option ContextFilter → CompletionGen;
  retrieve_relevant : string → Z → Z → list Chunk
}.

Definition Gen (A : Type) : Type :=
  PrivateGptUi → (PyExn + A) * PrivateGptUi * list Event.

Definition ret {A} (a : A) : Gen A := λ self, (inr a, self, []).

Definition bind {A B} (m : Gen A) (k : A → Gen B) : Gen B :=
  λ self,
    match m self with
    | (inl e, self', evs) => (inl e, self', evs)
    | (inr a, self', evs) =>
        match k a self' with
        | (r, self'', evs') => (r, self'', evs ++ evs')
        end
    end.

Definition raise {A} (e : PyExn) : Gen A := λ self, (inl e, self, []).
Definition get_self : Gen PrivateGptUi := λ self, (inr self, self, []).
Definition put_self (self' : PrivateGptUi) : Gen unit := λ _, (inr tt, self', []).
Definition emit (ev : Event) : Gen unit := λ self, (inr tt, self, [ev]).

Notation "'let*' x ':=' m 'in' k" := (bind m (λ x, k))
  (at level 10, x name, m at level 100, k at level 200, only parsing).
Notation "m '>>' k" := (bind m (λ _, k))
  (at level 100, k at level 200, right associativity, only parsing).

Definition outcome {A} (r : (PyExn + A) * PrivateGptUi * list Event) : PyExn + A :=
  r.1.1.
Definition self_after {A} (r : (PyExn + A) * PrivateGptUi * list Event) : PrivateGptUi :=
  r.1.2.
Definition events {A} (r : (PyExn + A) * PrivateGptUi * list Event) : list Event :=
  r.2.

(** The snapshots a consumer of the generator receives, in order. *)
Definition snapshots (evs : list Event) : list string :=
  omap (λ ev, match ev with Yield s => Some s | _ => None end) evs.

(** The calls made to the three services, in order. *)
Definition is_call (ev : Event) : bool :=
  match ev with
  | ListIngested | StreamChat _ _ _ | RetrieveRelevant _ _ _ => true
  | Yield _ | Sleep => false
  end.

Definition service_calls (evs : list Event) : list Event := filter is_call evs.

(** ** PrivateGptUi._chat *)

(** The text one unit of the stream contributes to [full_response]. *)
Definition delta_text (delta : Delta) : string :=
  match delta with
  | DeltaStr s => s                               (* [str(delta)] *)
  | DeltaChatResponse d => default EmptyString d  (* [delta.delta], else empty *)
  | DeltaOther => EmptyString                     (* neither branch taken *)
  end.

(** [for delta in stream: ...; yield full_response; time.sleep(0.02)],
    returning [full_response] as the loop leaves it. *)
Fixpoint stream_loop (stream : list Delta) (full_response : string) : Gen string :=
  match stream with
  | [] => ret full_response
  | delta :: stream' =>
      let full_response := full_response +:+ delta_text delta in
      emit (Yield full_response) >>
      emit Sleep >>
      stream_loop stream' full_response
  end.

(** The loop over [enumerate(cur_sources, start=1)]: [index] is the number of
    the head of [cur_sources]. *)
Fixpoint sources_loop (cur_sources : list Source) (index : nat)
    (sources_text : string) (used_files : gset string) : string :=
  match cur_sources with
  | [] => sources_text
  | source :: rest =>
      let key := file source +:+ "-" +:+ page source in
      if decide (key ∉ used_files)
      then sources_loop rest (S index)
             (sources_text +:+ PyStr.of_nat index +:+ ". " +:+ file source
                +:+ " (page " +:+ page source +:+ ") " +:+ PyStr.LF +:+ PyStr.LF)
             (used_files ∪ {[ key ]})
      else sources_loop rest (S index) sources_text used_files
  end.

(** A list is truthy when it is neither [None] nor empty. *)
Definition truthy_list {A} (l : option (list A)) : option (list A) :=
  match l with
  | Some (x :: r) => Some (x :: r)
  | _ => None
  end.

(** [sources_text] as the loop over the curated sources leaves it. *)
Definition sources_text_of (cur_sources : list Source) : string :=
  sources_loop cur_sources 1 (PyStr.LF +:+ PyStr.LF +:+ PyStr.LF) ∅.

Definition yield_deltas (completion_gen : CompletionGen) : Gen unit :=
  let* full_response := stream_loop (response completion_gen) EmptyString in
  let full_response :=
    match truthy_list (sources completion_gen) with
    | Some srcs =>
        let full_response := full_response +:+ SOURCES_SEPARATOR in
        let cur_sources := curate_sources srcs in
        let sources_text := sources_text_of cur_sources in
        full_response +:+ sources_text
    | None => full_response
    end in
  emit (Yield full_response).

(** [new_message], [all_messages] and the optional system message. *)
Definition all_messages (system_prompt message : string)
    (history : list Interaction) : list ChatMessage :=
  let new_message := mkChatMessage message USER in
  let all_messages := build_history history ++ [new_message] in
  if decide (system_prompt ≠ EmptyString)
  then mkChatMessage system_prompt SYSTEM :: all_messages
  else all_messages.

(** [ingested_document.doc_metadata["file_name"]]: subscripting [None] raises
    [TypeError], a dict without the key raises [KeyError]. *)
Definition subscript_file_name (ingested_document : IngestedDoc) : Gen string :=
  match doc_metadata ingested_document with
  | None => raise TypeError
  | Some m =>
      match m !! "file_name" with
      | None => raise (KeyError "file_name")
      | Some v => ret v
      end
  end.

(** The loop that collects [docs_ids] for the selected file name. *)
Fixpoint collect_docs_ids (ingested : list IngestedDoc) (selected : string)
    (docs_ids : list string) : Gen (list string) :=
  match ingested with
  | [] => ret docs_ids
  | ingested_document :: rest =>
      let* file_name := subscript_file_name ingested_document in
      if decide (file_name = selected)
      then collect_docs_ids rest selected (docs_ids ++ [doc_id ingested_document])
      else collect_docs_ids rest selected docs_ids
  end.

(** One line of the "Search Files" answer. *)
Definition search_entry (index : nat) (source : Source) : string :=
  PyStr.of_nat index +:+ ". **" +:+ file source +:+ " "
    +:+ "(page " +:+ page source +:+ ")**" +:+ PyStr.LF +:+ " "
    +:+ text source.

Definition _chat (svc : Services) (message : string)
    (history : list Interaction) (mode : string) : Gen unit :=
  let* self := get_self in
  let all_messages := all_messages (_system_prompt self) message history in
  if decide (mode = "Query Files") then
    let* context_filter :=
      match _selected_filename self with
      | Some selected =>
          emit ListIngested >>
          let* docs_ids := collect_docs_ids (list_ingested svc) selected [] in
          ret (Some (mkContextFilter docs_ids))
      | None => ret None
      end in
    emit (StreamChat all_messages true context_filter) >>
    let query_stream := stream_chat svc all_messages true context_filter in
    yield_deltas query_stream
  else if decide (mode = "LLM Chat (no context from files)") then
    (* [context_filter] is left to its default, [None] *)
    emit (StreamChat all_messages false None) >>
    let llm_stream := stream_chat svc all_messages false None in
    yield_deltas llm_stream
  else if decide (mode = "Search Files") then
    emit (RetrieveRelevant message 4 0) >>
    let response := retrieve_relevant svc message 4%Z 0%Z in
    let sources := curate_sources response in
    emit (Yield (PyStr.join (PyStr.LF +:+ PyStr.LF +:+ PyStr.LF)
                   (imap (λ i source, search_entry (S i) source) sources)))
  else
    ret tt.


Definition _deselect_selected_file : Gen unit :=
  let* self := get_self in
  put_self (mkPrivateGptUi (mode self) (_system_prompt self) None).

Definition _selected_a_file (value : string) : Gen unit :=
  let* self := get_self in
  put_self (mkPrivateGptUi (mode self) (_system_prompt self) (Some value)).

(** [_list_ingested_files]: the set [files] of file names, documents without
    metadata skipped (the method returns its elements as one-element rows). *)
Definition _list_ingested_files (svc : Services) : Gen (gset string) :=
  emit ListIngested >>
  ret (foldl (λ (files : gset string) ingested_document,
                match doc_metadata ingested_document with
                | None => files
                | Some m =>
                    files ∪ {[ default "[FILE NAME MISSING]" (m !! "file_name") ]}
                end)
             ∅ (list_ingested svc)).

(** ** Specification-side definitions *)

(** The last [n] elements of a list, in order: "the most recent [n]". *)
Definition most_recent {A} (n : nat) (l : list A) : list A :=
  drop (length l - n) l.

(** Stable deduplication: every element at its first occurrence only. *)
Fixpoint first_occurrences {A} `{EqDecision A} (l : list A) : list A :=
  match l with
  | [] => []
  | x :: rest => x :: filter (λ y, y ≠ x) (first_occurrences rest)
  end.

(** The deduplication key the specification names. *)
Definition file_page (chunk : Chunk) : string * string :=
  (file (source_of_chunk chunk), page (source_of_chunk chunk)).

(** A compacted message sequence read back as a history: consecutive
    messages paired as (user text, assistant text). *)
Fixpoint as_history (messages : list ChatMessage) : list Interaction :=
  match messages with
  | user :: assistant :: rest =>
      (content user, content assistant) :: as_history rest
  | _ => []
  end.

(** What a history entry becomes once its assistant text is stripped. *)
Definition strip (interaction : Interaction) : Interaction :=
  (fst interaction, PyStr.before SOURCES_SEPARATOR (snd interaction)).

(** The events of the streaming loop: every running total is yielded and
    followed by the pacing delay. *)
Definition paced (snaps : list string) : list Event :=
  flat_map (λ s, [Yield s; Sleep]) snaps.

(** The eleven-entry history [(u1, a1); ...; (u11, a11)]. *)
Definition eleven_turns : list Interaction :=
  map (λ n, ("u" +:+ PyStr.of_nat n, "a" +:+ PyStr.of_nat n)) (seq 1 11).

(** An ingested page of [a.pdf], and two passages retrieved from it. *)
Definition a_pdf_page_1 : IngestedDoc :=
  mkIngestedDoc "doc-1" (Some {[ "file_name" := "a.pdf"; "page_label" := "1" ]}).

Definition same_page_passages : list Chunk :=
  [ mkChunk "first passage" a_pdf_page_1; mkChunk "second passage" a_pdf_page_1 ].

(** The history of the scenario as the specification writes it, and as the
    streamer produces it (the assistant text carries [SOURCES_SEPARATOR]). *)
Definition scenario_history_as_written : list Interaction :=
  [ ("Hi", "Hello! Sources: " +:+ PyStr.LF +:+ PyStr.LF +:+ PyStr.LF
             +:+ "1. a.pdf (page 1)") ].

Definition scenario_history_as_streamed : list Interaction :=
  [ ("Hi", "Hello!" +:+ SOURCES_SEPARATOR +:+ PyStr.LF +:+ PyStr.LF +:+ PyStr.LF
             +:+ "1. a.pdf (page 1) " +:+ PyStr.LF +:+ PyStr.LF) ].

Definition scenario_messages : list ChatMessage :=
  [ mkChatMessage "Hi" USER; mkChatMessage "Hello!" ASSISTANT;
    mkChatMessage "Tell me more" USER ].

(** A session and services to run the dispatcher on: one named document,
    one document without metadata, a two-unit answer with one passage. *)
Definition no_metadata_doc : IngestedDoc := mkIngestedDoc "doc-2" None.

Definition demo_gen : CompletionGen :=
  mkCompletionGen [DeltaStr "Hel"; DeltaChatResponse (Some "lo!")]
    (Some [mkChunk "first passage" a_pdf_page_1]).

Definition demo_services (ingested : list IngestedDoc) : Services :=
  mkServices ingested (λ _ _ _, demo_gen) (λ _ _ _, same_page_passages).

Definition demo_self (selected : option string) : PrivateGptUi :=
  mkPrivateGptUi "Query Files" EmptyString selected.

(** An ingested document that carries a file name other than [selected]. *)
Definition named_other (selected : string) (d : IngestedDoc) : Prop :=
  ∃ m name, doc_metadata d = Some m ∧ m !! "file_name" = Some name
            ∧ name ≠ selected.

(** An ingested document whose metadata is absent or lacks the file name. *)
Definition unnamed (d : IngestedDoc) : Prop :=
  doc_metadata d = None ∨ ∃ m, doc_metadata d = Some m ∧ m !! "file_name" = None.



(** The running totals of the stream, starting from [acc]. *)
Fixpoint running (stream : list Delta) (acc : string) : list string :=
  match stream with
  | [] => []
  | delta :: stream' =>
      (acc +:+ delta_text delta) :: running stream' (acc +:+ delta_text delta)
  end.

(** The whole generated text. *)
Definition generated (stream : list Delta) : string :=
  foldl (λ acc delta, acc +:+ delta_text delta) EmptyString stream.

(** What [yield_deltas] appends once the stream is exhausted: nothing, or
    the separator followed by the citation block. *)
Definition sources_block (completion_gen : CompletionGen) : string :=
  match truthy_list (sources completion_gen) with
  | Some srcs => SOURCES_SEPARATOR +:+ sources_text_of (curate_sources srcs)
  | None => EmptyString
  end.


(** ** Effects of the handlers

    The handlers of the file list talk to the ingest service, whose listing
    changes as documents are deleted and ingested.  A computation takes a
    state, and returns its outcome, the state afterwards and the calls it
    made, oldest first. *)

Definition Eff (S E A : Type) : Type := S → (PyExn + A) * S * list E.

Definition eret {S E A} (a : A) : Eff S E A := λ s, (inr a, s, []).

Definition ebind {S E A B} (m : Eff S E A) (k : A → Eff S E B) : Eff S E B :=
  λ s,
    match m s with
    | (inl e, s', calls) => (inl e, s', calls)
    | (inr a, s', calls) =>
        match k a s' with
        | (r, s'', calls') => (r, s'', calls ++ calls')
        end
    end.

Definition eraise {S E A} (e : PyExn) : Eff S E A := λ s, (inl e, s, []).

Definition eff_outcome {S E A} (r : (PyExn + A) * S * list E) : PyExn + A := r.1.1.
Definition eff_state {S E A} (r : (PyExn + A) * S * list E) : S := r.1.2.
Definition eff_calls {S E A} (r : (PyExn + A) * S * list E) : list E := r.2.

Notation "'let!' x ':=' m 'in' k" := (ebind m (λ x, k))
  (at level 10, x name, m at level 100, k at level 200, only parsing).
Notation "m '>>>' k" := (ebind m (λ _, k))
  (at level 100, k at level 200, right associativity, only parsing).

(** ** The ingest service and the handlers of the file list *)

Inductive IngestCall :=
| CallListIngested
| CallDelete (doc_id : string)
| CallBulkIngest (files : list (string * string)).

(** The ingest service as a state machine over its document store. *)
Record IngestService (Store : Type) := mkIngestService {
  ingest_list_ingested : Store → list IngestedDoc;
  ingest_delete : string → Store → Store;
  ingest_bulk_ingest : list (string * string) → Store → Store
}.

Arguments ingest_list_ingested {Store}.
Arguments ingest_delete {Store}.
Arguments ingest_bulk_ingest {Store}.

(** What the handlers return to the page. *)
Inductive Component :=
| GrList (rows : gset string)
| GrButton (interactive : bool)
| GrTextbox (value : string).

(** A dict is truthy when it is neither [None] nor empty. *)
Definition truthy_dict (doc_metadata : option (gmap string string)) :
    option (gmap string string) :=
  match doc_metadata with
  | Some m => if decide (m = ∅) then None else Some m
  | None => None
  end.

Module Files.
Section Handlers.

Context {Store : Type} (ingest : IngestService Store).

(** The state of a handler: the fields of [self] and the store of the
    service. *)
Definition Handler (A : Type) : Type := Eff (PrivateGptUi * Store) IngestCall A.

Definition list_ingested : Handler (list IngestedDoc) :=
  λ s, (inr (ingest_list_ingested ingest s.2), s, [CallListIngested]).

Definition delete (doc_id : string) : Handler unit :=
  λ s, (inr tt, (s.1, ingest_delete ingest doc_id s.2), [CallDelete doc_id]).

Definition bulk_ingest (files : list (string * string)) : Handler unit :=
  λ s, (inr tt, (s.1, ingest_bulk_ingest ingest files s.2), [CallBulkIngest files]).

Definition get_selected : Handler (option string) :=
  λ s, (inr (_selected_filename s.1), s, []).

(** The set [files] that [_list_ingested_files] builds. *)
Definition file_names_of (ingested : list IngestedDoc) : gset string :=
  foldl (λ (files : gset string) ingested_document,
           match doc_metadata ingested_document with
           | None => files
           | Some m =>
               files ∪ {[ default "[FILE NAME MISSING]" (m !! "file_name") ]}
           end)
        ∅ ingested.

Definition _list_ingested_files : Handler (gset string) :=
  let! ingested := list_ingested in
  eret (file_names_of ingested).

(** [for doc_id in doc_ids_to_delete: delete(doc_id)]. *)
Fixpoint delete_each (doc_ids : list string) : Handler unit :=
  match doc_ids with
  | [] => eret tt
  | doc_id :: rest => delete doc_id >>> delete_each rest
  end.

(** The loop of [_upload_file] that collects [doc_ids_to_delete]:
    [doc_metadata and doc_metadata["file_name"] in file_names]. *)
Fixpoint upload_collect (ingested : list IngestedDoc) (file_names : list string)
    (doc_ids_to_delete : list string) : Handler (list string) :=
  match ingested with
  | [] => eret doc_ids_to_delete
  | ingested_document :: rest =>
      match truthy_dict (doc_metadata ingested_document) with
      | None => upload_collect rest file_names doc_ids_to_delete
      | Some m =>
          match m !! "file_name" with
          | None => eraise (KeyError "file_name")
          | Some file_name =>
              if decide (file_name ∈ file_names)
              then upload_collect rest file_names
                     (doc_ids_to_delete ++ [doc_id ingested_document])
              else upload_collect rest file_names doc_ids_to_delete
          end
      end
  end.

(** [_upload_file]: a path is kept as the string it was made from, and
    [path_name] is [Path(file).name]. *)
Definition _upload_file (path_name : string → string) (files : list string) :
    Handler unit :=
  let paths := files in
  let file_names := map path_name paths in
  let! ingested := list_ingested in
  let! doc_ids_to_delete := upload_collect ingested file_names [] in
  (if decide (0 < length doc_ids_to_delete)
   then delete_each doc_ids_to_delete
   else eret tt) >>>
  bulk_ingest (map (λ path, (path_name path, path)) paths).

(** The four components both delete handlers return. *)
Definition after_delete : Handler (list Component) :=
  let! files := _list_ingested_files in
  eret [GrList files; GrButton false; GrButton false; GrTextbox "All files"].

Definition _delete_all_files : Handler (list Component) :=
  let! ingested_files := list_ingested in
  delete_each (map doc_id ingested_files) >>>
  after_delete.

(** The loop of [_delete_selected_file]: the listing is walked once and a
    matching document is deleted as soon as it is met. *)
Fixpoint delete_matching (ingested : list IngestedDoc) (selected : option string) :
    Handler unit :=
  match ingested with
  | [] => eret tt
  | ingested_document :: rest =>
      match truthy_dict (doc_metadata ingested_document) with
      | None => delete_matching rest selected
      | Some m =>
          match m !! "file_name" with
          | None => eraise (KeyError "file_name")
          | Some file_name =>
              if decide (Some file_name = selected)
              then delete (doc_id ingested_document) >>>
                   delete_matching rest selected
              else delete_matching rest selected
          end
      end
  end.

Definition _delete_selected_file : Handler (list Component) :=
  let! selected := get_selected in
  let! ingested := list_ingested in
  delete_matching ingested selected >>>
  after_delete.

End Handlers.
End Files.

(** ** The sidebar and the cached page *)

Record GrUpdate := mkGrUpdate { visible : bool }.

Definition toggle_sidebar (state : bool) (input_text : string) : GrUpdate * bool :=
  let state := if decide (input_text = "Private-gpt") then negb state else state in
  (mkGrUpdate state, state).

Inductive UiCall :=
| CallBuildUiBlocks
| CallQueue
| CallMountGradioApp (path : string).

(** [get_ui_blocks]: [_ui_block] is the state, [built] is what
    [_build_ui_blocks] returns. *)
Definition get_ui_blocks {Blocks} (built : Blocks) :
    Eff (option Blocks) UiCall Blocks :=
  λ _ui_block,
    match _ui_block with
    | None => (inr built, Some built, [CallBuildUiBlocks])
    | Some blocks => (inr blocks, Some blocks, [])
    end.

Definition mount_in_app {Blocks} (built : Blocks) (path : string) :
    Eff (option Blocks) UiCall unit :=
  let! blocks := get_ui_blocks built in
  (λ s, (inr tt, s, [CallQueue])) >>>
  (λ s, (inr tt, s, [CallMountGradioApp path])).

(** ** Further specification-side definitions *)

(** [sep in s]. *)
Fixpoint str_contains (sep s : string) : bool :=
  String.prefix sep s
  || match s with
     | EmptyString => false
     | String _ s' => str_contains sep s'
     end.

(** The file name a document carries, if any. *)
Definition doc_file_name (d : IngestedDoc) : option string :=
  match doc_metadata d with
  | Some m => m !! "file_name"
  | None => None
  end.

(** The identifiers of the documents named [selected], in listing order. *)
Definition matching_ids (selected : string) (ingested : list IngestedDoc) :
    list string :=
  map doc_id (filter (λ d, doc_file_name d = Some selected) ingested).

(** The key [yield_deltas] remembers a cited source by, and its line. *)
Definition citation_key (source : Source) : string :=
  file source +:+ "-" +:+ page source.

Definition citation_line (index : nat) (source : Source) : string :=
  PyStr.of_nat index +:+ ". " +:+ file source +:+ " (page " +:+ page source
    +:+ ") " +:+ PyStr.LF +:+ PyStr.LF.

(** The sources that get a line, with their positions counted from 0: those
    whose key no earlier source has. *)
Definition cited_entries (cur_sources : list Source) : list (nat * Source) :=
  filter (λ entry, citation_key entry.2
                     ∉ map citation_key (take entry.1 cur_sources))
         (imap (λ i source, (i, source)) cur_sources).

Definition concat_lines (lines : list string) : string :=
  foldr String.append EmptyString lines.

Definition is_sleep (ev : Event) : bool :=
  match ev with Sleep => true | _ => false end.

(** A document that carries a file name. *)
Definition named (d : IngestedDoc) : Prop := is_Some (doc_file_name d).

(** A document the loops of the file handlers accept: its metadata is falsy
    or holds a file name; and one they fail on. *)
Definition well_formed (d : IngestedDoc) : Prop :=
  truthy_dict (doc_metadata d) = None ∨ named d.

Definition malformed (d : IngestedDoc) : Prop :=
  ∃ m, truthy_dict (doc_metadata d) = Some m ∧ m !! "file_name" = None.

(** A document whose file name is among [file_names]. *)
Definition named_among (file_names : list string) (d : IngestedDoc) : Prop :=
  match doc_file_name d with
  | Some name => name ∈ file_names
  | None => False
  end.

Global Instance named_among_dec file_names d : Decision (named_among file_names d).
Proof. unfold named_among. destruct (doc_file_name d); apply _. Defined.

(** The store after deleting the identifiers [doc_ids] one by one. *)
Definition deleted_from {Store} (ingest : IngestService Store)
    (doc_ids : list string) (store : Store) : Store :=
  foldl (λ store doc_id, ingest_delete ingest doc_id store) store doc_ids.

(** A service whose [delete] removes the documents of that identifier and
    no other. *)
Definition delete_removes {Store} (ingest : IngestService Store) : Prop :=
  ∀ doc_id' store,
    ingest_list_ingested ingest (ingest_delete ingest doc_id' store)
    = filter (λ d, doc_id d ≠ doc_id') (ingest_list_ingested ingest store).

(** The identifiers [_delete_selected_file] deletes: those of the documents
    named like the selection, none when nothing is selected. *)
Definition selected_ids (selected : option string) (ingested : list IngestedDoc) :
    list string :=
  match selected with
  | Some name => matching_ids name ingested
  | None => []
  end.

(** A document with a page label and no file name. *)
Definition page_only_doc : IngestedDoc :=
  mkIngestedDoc "doc-3" (Some {[ "page_label" := "7" ]}).

(** A store that is the list of its documents: deleting removes the
    documents of that identifier, ingesting adds one named document per
    file. *)
Definition list_store : IngestService (list IngestedDoc) :=
  mkIngestService (list IngestedDoc)
    (λ docs, docs)
    (λ doc_id' docs, filter (λ d, doc_id d ≠ doc_id') docs)
    (λ files docs,
       docs ++ map (λ f, mkIngestedDoc ("id-" +:+ f.1)
                           (Some {[ "file_name" := f.1 ]})) files).

(** The name of a path without directories (for the examples). *)
Definition plain_name (file : string) : string := file.

(** ** Strings: split and prefixes *)

Section Strings.

Lemma append_cons (c : Ascii.ascii) (s t : string) :
  String c s +:+ t = String c (s +:+ t).
Proof. reflexivity. Qed.

Lemma append_nil_r (s : string) : s +:+ EmptyString = s.
Proof.
  induction s as [|c s IH]; [done |]. by rewrite append_cons, IH.
Qed.

Lemma append_assoc (a b c : string) : (a +:+ b) +:+ c = a +:+ (b +:+ c).
Proof.
  induction a as [|x a IH]; [done |]. by rewrite !append_cons, IH.
Qed.

Lemma prefix_nil_inv (a : string) :
  String.prefix a EmptyString = true → a = EmptyString.
Proof. by destruct a. Qed.

(** [l[0]] of a split is the text before the first separator. *)
Lemma split_go_first (sep cur s : string) :
  PyStr.first (PyStr.split_go sep O cur s) = cur +:+ PyStr.before sep s.
Proof.
  revert cur. induction s as [|c s IH]; intros cur.
  - cbn [PyStr.split_go PyStr.before PyStr.first hd].
    by rewrite append_nil_r.
  - cbn [PyStr.split_go PyStr.before].
    destruct (String.prefix sep (String c s)).
    + cbn [PyStr.first hd]. by rewrite append_nil_r.
    + rewrite IH, append_assoc. done.
Qed.

(** A split is never empty, so [l[0]] exists. *)
Lemma split_go_nonempty (sep : string) (skip : nat) (cur s : string) :
  PyStr.split_go sep skip cur s ≠ [].
Proof.
  revert skip cur. induction s as [|c s IH]; intros skip cur; [done |].
  cbn [PyStr.split_go]. destruct skip as [|k]; [| apply IH].
  destruct (String.prefix sep (String c s)); [done | apply IH].
Qed.

Lemma split_first (s sep : string) :
  PyStr.first (PyStr.split s sep) = PyStr.before sep s.
Proof. unfold PyStr.split. by rewrite split_go_first. Qed.

(** [before] returns a prefix of its argument. *)
Lemma prefix_before (a sep s : string) :
  String.prefix a (PyStr.before sep s) = true → String.prefix a s = true.
Proof.
  revert a. induction s as [|c s IH]; intros a; [done |].
  cbn [PyStr.before]. destruct (String.prefix sep (String c s)).
  - intros ->%prefix_nil_inv. done.
  - destruct a as [|d a]; [done |]. simpl.
    destruct (Ascii.ascii_dec d c); [apply IH | done].
Qed.

(** The text before the separator holds no separator. *)
Lemma before_idemp (sep s : string) :
  PyStr.before sep (PyStr.before sep s) = PyStr.before sep s.
Proof.
  induction s as [|c s IH]; [done |].
  cbn [PyStr.before].
  destruct (String.prefix sep (String c s)) eqn:Hp; [done |].
  cbn [PyStr.before].
  destruct (String.prefix sep (String c (PyStr.before sep s))) eqn:Hq.
  - exfalso. destruct sep as [|d sep]; [done |].
    simpl in Hp, Hq. destruct (Ascii.ascii_dec d c); [| done].
    apply prefix_before in Hq. congruence.
  - by rewrite IH.
Qed.

End Strings.

(** ** The history compactor *)

Section History.

Lemma interaction_messages_before (interaction : Interaction) :
  interaction_messages interaction =
    [ mkChatMessage (fst interaction) USER;
      mkChatMessage (PyStr.before SOURCES_SEPARATOR (snd interaction)) ASSISTANT ].
Proof. unfold interaction_messages. by rewrite split_first. Qed.

Lemma history_messages_cons (interaction : Interaction) (history : list Interaction) :
  history_messages (interaction :: history) =
    mkChatMessage (fst interaction) USER
      :: mkChatMessage (PyStr.before SOURCES_SEPARATOR (snd interaction)) ASSISTANT
      :: history_messages history.
Proof.
  unfold history_messages. cbn [map concat].
  by rewrite interaction_messages_before.
Qed.

Lemma history_messages_length (history : list Interaction) :
  length (history_messages history) = 2 * length history.
Proof.
  induction history as [|i h IH]; [done |].
  rewrite history_messages_cons. cbn [length]. lia.
Qed.

(** Cutting the messages at an even position cuts between two entries. *)
Lemma take_history_messages (n : nat) (history : list Interaction) :
  take (2 * n) (history_messages history) = history_messages (take n history).
Proof.
  revert history. induction n as [|n IH]; intros history.
  - by rewrite !take_0.
  - destruct history as [|i h]; [done |].
    replace (2 * S n) with (S (S (2 * n))) by lia.
    rewrite history_messages_cons. cbn [take].
    rewrite history_messages_cons. by rewrite IH.
Qed.

Lemma build_history_entries (history : list Interaction) :
  build_history history = history_messages (take 10 history).
Proof. unfold build_history. by rewrite <- take_history_messages. Qed.

(** The compactor returns the front of the message sequence. *)
Lemma build_history_front (history : list Interaction) :
  build_history history `prefix_of` history_messages history.
Proof. unfold build_history. apply prefix_take. Qed.

Lemma build_history_length (history : list Interaction) :
  20 < length (history_messages history) →
  length (build_history history) = 20.
Proof. intros H. unfold build_history. rewrite length_take. lia. Qed.

Lemma as_history_messages (history : list Interaction) :
  as_history (history_messages history) = map strip history.
Proof.
  induction history as [|i h IH]; [done |].
  rewrite history_messages_cons. cbn [as_history content map].
  by rewrite IH.
Qed.

(** Reading back loses nothing: tagging the pairs again gives the messages. *)
Lemma as_history_faithful (history : list Interaction) :
  concat (map (λ interaction : Interaction,
                 [ mkChatMessage (fst interaction) USER;
                   mkChatMessage (snd interaction) ASSISTANT ])
              (as_history (history_messages history)))
  = history_messages history.
Proof.
  rewrite as_history_messages.
  induction history as [|i h IH]; [done |].
  rewrite history_messages_cons. cbn [map concat app strip fst snd].
  by rewrite IH.
Qed.

Lemma history_messages_strip (history : list Interaction) :
  history_messages (map strip history) = history_messages history.
Proof.
  induction history as [|i h IH]; [done |].
  cbn [map]. rewrite !history_messages_cons, IH.
  unfold strip. cbn [fst snd]. by rewrite before_idemp.
Qed.

End History.

(** ** Running computations *)

Section Running.

Context {A B : Type}.

Lemma bind_ret (a : A) (k : A → Gen B) (self : PrivateGptUi) :
  bind (ret a) k self = k a self.
Proof. unfold bind, ret. by destruct (k a self) as [[? ?] ?]. Qed.

Lemma bind_get_self (k : PrivateGptUi → Gen B) (self : PrivateGptUi) :
  bind get_self k self = k self self.
Proof. unfold bind, get_self. by destruct (k self self) as [[? ?] ?]. Qed.

Lemma bind_emit (ev : Event) (k : unit → Gen B) (self : PrivateGptUi) :
  bind (emit ev) k self =
    (outcome (k tt self), self_after (k tt self), ev :: events (k tt self)).
Proof. unfold bind, emit. by destruct (k tt self) as [[? ?] ?]. Qed.

Lemma bind_returns (m : Gen A) (k : A → Gen B) (self self' : PrivateGptUi)
    (a : A) (evs : list Event) :
  m self = (inr a, self', evs) →
  bind m k self =
    (outcome (k a self'), self_after (k a self'), evs ++ events (k a self')).
Proof. intros H. unfold bind. rewrite H. by destruct (k a self') as [[? ?] ?]. Qed.

Lemma bind_raises (m : Gen A) (k : A → Gen B) (self self' : PrivateGptUi)
    (e : PyExn) (evs : list Event) :
  m self = (inl e, self', evs) →
  bind m k self = (inl e, self', evs).
Proof. intros H. unfold bind. by rewrite H. Qed.

End Running.

(** ** The response streamer *)

Section Streamer.

Lemma generated_from (stream : list Delta) (acc : string) :
  foldl (λ acc delta, acc +:+ delta_text delta) acc stream =
    acc +:+ generated stream.
Proof.
  unfold generated. revert acc.
  induction stream as [|d stream IH] using rev_ind; intros acc.
  - cbn. by rewrite append_nil_r.
  - rewrite !foldl_app. cbn [foldl]. by rewrite IH, append_assoc.
Qed.

Lemma stream_loop_run (stream : list Delta) (acc : string) (self : PrivateGptUi) :
  stream_loop stream acc self =
    (inr (foldl (λ acc delta, acc +:+ delta_text delta) acc stream),
     self, paced (running stream acc)).
Proof.
  revert acc. induction stream as [|d stream IH]; intros acc; [done |].
  cbn [stream_loop running foldl]. unfold bind, emit at 1 2.
  rewrite IH. done.
Qed.

Lemma yield_deltas_run (completion_gen : CompletionGen) (self : PrivateGptUi) :
  yield_deltas completion_gen self =
    (inr tt, self,
     paced (running (response completion_gen) EmptyString)
       ++ [Yield (generated (response completion_gen)
                    +:+ sources_block completion_gen)]).
Proof.
  unfold yield_deltas.
  rewrite (bind_returns _ _ _ _ _ _ (stream_loop_run _ _ _)).
  rewrite generated_from. unfold emit, outcome, self_after, events, sources_block.
  cbn [fst snd]. do 2 f_equal.
  destruct (truthy_list (sources completion_gen)) as [srcs|].
  - by rewrite append_assoc.
  - by rewrite append_nil_r.
Qed.

Lemma snapshots_app (evs evs' : list Event) :
  snapshots (evs ++ evs') = snapshots evs ++ snapshots evs'.
Proof. unfold snapshots. apply omap_app. Qed.

Lemma snapshots_paced (snaps : list string) : snapshots (paced snaps) = snaps.
Proof.
  induction snaps as [|s snaps IH]; [done |].
  unfold paced in *. cbn [flat_map]. rewrite snapshots_app, IH. done.
Qed.

Lemma service_calls_app (evs evs' : list Event) :
  service_calls (evs ++ evs') = service_calls evs ++ service_calls evs'.
Proof. unfold service_calls. apply filter_app. Qed.

Lemma service_calls_paced (snaps : list string) : service_calls (paced snaps) = [].
Proof.
  induction snaps as [|s snaps IH]; [done |].
  unfold paced in *. cbn [flat_map]. rewrite service_calls_app, IH. done.
Qed.

Lemma service_calls_yield_deltas (completion_gen : CompletionGen) (self : PrivateGptUi) :
  service_calls (events (yield_deltas completion_gen self)) = [].
Proof.
  rewrite yield_deltas_run. unfold events. cbn [snd].
  rewrite service_calls_app, service_calls_paced. done.
Qed.

Lemma snapshots_yield_deltas (completion_gen : CompletionGen) (self : PrivateGptUi) :
  snapshots (events (yield_deltas completion_gen self)) =
    running (response completion_gen) EmptyString
      ++ [generated (response completion_gen) +:+ sources_block completion_gen].
Proof.
  rewrite yield_deltas_run. unfold events. cbn [snd].
  rewrite snapshots_app, snapshots_paced. done.
Qed.




Lemma running_length (stream : list Delta) (acc : string) :
  length (running stream acc) = length stream.
Proof.
  revert acc. induction stream as [|d stream IH]; intros acc; [done |].
  cbn [running length]. by rewrite IH.
Qed.



End Streamer.

(** ** The mode dispatcher *)

Section Dispatcher.

Context (svc : Services) (message : string) (history : list Interaction).

(** Resolving the selection performs no event and leaves [self] alone,
    whether it returns or raises. *)
Lemma collect_docs_ids_quiet (ingested : list IngestedDoc) (selected : string)
    (ids : list string) (self : PrivateGptUi) :
  ∃ r, collect_docs_ids ingested selected ids self = (r, self, []).
Proof.
  revert ids. induction ingested as [|d rest IH]; intros ids.
  - by exists (inr ids).
  - cbn [collect_docs_ids]. unfold subscript_file_name.
    destruct (doc_metadata d) as [m|]; [| by exists (inl TypeError)].
    destruct (m !! "file_name") as [v|]; [| by exists (inl (KeyError "file_name"))].
    rewrite bind_ret. destruct (decide (v = selected)) as [_|_]; apply IH.
Qed.

(** With every document named and none named like the selection, no
    identifier is collected. *)
Lemma collect_docs_ids_no_match (ingested : list IngestedDoc) (selected : string)
    (ids : list string) (self : PrivateGptUi) :
  Forall (named_other selected) ingested →
  collect_docs_ids ingested selected ids self = (inr ids, self, []).
Proof.
  induction 1 as [|d rest (m & name & Hm & Hname & Hne) _ IH]; [done |].
  cbn [collect_docs_ids]. unfold subscript_file_name.
  rewrite Hm, Hname, bind_ret.
  destruct (decide (name = selected)) as [|_]; [done | apply IH].
Qed.

(** A document without a file name makes the resolution raise. *)
Lemma collect_docs_ids_raises (ingested : list IngestedDoc) (selected : string)
    (ids : list string) (self : PrivateGptUi) :
  Exists unnamed ingested →
  ∃ e, (e = TypeError ∨ e = KeyError "file_name")
       ∧ collect_docs_ids ingested selected ids self = (inl e, self, []).
Proof.
  revert ids. induction ingested as [|d rest IH]; intros ids Hex.
  - by apply Exists_nil in Hex.
  - cbn [collect_docs_ids]. unfold subscript_file_name.
    destruct (doc_metadata d) as [m|] eqn:Hm; [| exists TypeError; auto].
    destruct (m !! "file_name") as [v|] eqn:Hv;
      [| exists (KeyError "file_name"); auto].
    apply Exists_cons in Hex as [[? | (m' & ? & ?)] | Hex]; [congruence.. |].
    rewrite bind_ret.
    destruct (decide (v = selected)) as [_|_]; by apply IH.
Qed.

Lemma chat_query_all_files (self : PrivateGptUi) :
  _selected_filename self = None →
  _chat svc message history "Query Files" self =
    (inr tt, self,
     StreamChat (all_messages (_system_prompt self) message history) true None
       :: events (yield_deltas
            (stream_chat svc (all_messages (_system_prompt self) message history)
               true None) self)).
Proof.
  intros Hsel. unfold _chat. rewrite bind_get_self.
  destruct (decide ("Query Files" = "Query Files")) as [_|]; [| done].
  rewrite Hsel, bind_ret, bind_emit. by rewrite yield_deltas_run.
Qed.

Lemma chat_query_selected (self : PrivateGptUi) (selected : string)
    (r : PyExn + list string) :
  _selected_filename self = Some selected →
  collect_docs_ids (list_ingested svc) selected [] self = (r, self, []) →
  _chat svc message history "Query Files" self =
    match r with
    | inl e => (inl e, self, [ListIngested])
    | inr ids =>
        (inr tt, self,
         ListIngested
           :: StreamChat (all_messages (_system_prompt self) message history)
                true (Some (mkContextFilter ids))
           :: events (yield_deltas
                (stream_chat svc
                   (all_messages (_system_prompt self) message history)
                   true (Some (mkContextFilter ids))) self))
    end.
Proof.
  intros Hsel Hrun. unfold _chat. rewrite bind_get_self.
  destruct (decide ("Query Files" = "Query Files")) as [_|]; [| done].
  rewrite Hsel. destruct r as [e | ids].
  - apply bind_raises.
    rewrite bind_emit. by rewrite (bind_raises _ _ _ _ _ _ Hrun).
  - rewrite (bind_returns _ _ self self (Some (mkContextFilter ids)) [ListIngested]).
    + rewrite bind_emit, yield_deltas_run. done.
    + rewrite bind_emit. by rewrite (bind_returns _ _ _ _ _ _ Hrun).
Qed.

Lemma chat_llm (self : PrivateGptUi) :
  _chat svc message history "LLM Chat (no context from files)" self =
    (inr tt, self,
     StreamChat (all_messages (_system_prompt self) message history) false None
       :: events (yield_deltas
            (stream_chat svc (all_messages (_system_prompt self) message history)
               false None) self)).
Proof.
  unfold _chat. rewrite bind_get_self.
  destruct (decide ("LLM Chat (no context from files)" = "Query Files")) as [[=]|_].
  destruct (decide ("LLM Chat (no context from files)"
                    = "LLM Chat (no context from files)")) as [_|]; [| done].
  rewrite bind_emit. by rewrite yield_deltas_run.
Qed.

Lemma chat_search (self : PrivateGptUi) :
  ∃ answer,
    _chat svc message history "Search Files" self =
      (inr tt, self, [RetrieveRelevant message 4 0; Yield answer]).
Proof.
  unfold _chat. rewrite bind_get_self.
  destruct (decide ("Search Files" = "Query Files")) as [[=]|_].
  destruct (decide ("Search Files" = "LLM Chat (no context from files)")) as [[=]|_].
  destruct (decide ("Search Files" = "Search Files")) as [_|]; [| done].
  rewrite bind_emit. eauto.
Qed.

Lemma chat_unknown (mode : string) (self : PrivateGptUi) :
  mode ∉ MODES →
  _chat svc message history mode self = (inr tt, self, []).
Proof.
  intros Hmode. unfold _chat. rewrite bind_get_self.
  repeat (destruct (decide _) as [->|_];
          [exfalso; apply Hmode; unfold MODES; set_solver |]).
  done.
Qed.

End Dispatcher.

(** ** The source curator *)

Section Curator.

Context {A : Type} `{EqDecision A}.

Implicit Types (l acc : list A) (x : A).

Lemma filter_ne_absent l x : x ∉ l → filter (λ y, y ≠ x) l = l.
Proof.
  induction l as [|z l IH]; [done |].
  intros [Hne Hx]%not_elem_of_cons.
  rewrite filter_cons_True by congruence. by rewrite IH.
Qed.

Lemma elem_of_first_occurrences l x : x ∈ first_occurrences l ↔ x ∈ l.
Proof.
  induction l as [|y l IH]; [done |].
  cbn [first_occurrences]. rewrite !elem_of_cons, list_elem_of_filter, IH.
  destruct (decide (x = y)) as [->|Hne]; tauto.
Qed.

Lemma NoDup_first_occurrences l : NoDup (first_occurrences l).
Proof.
  induction l as [|y l IH]; [constructor |].
  cbn [first_occurrences]. constructor.
  - rewrite list_elem_of_filter. by intros [Hne _].
  - by apply NoDup_filter.
Qed.

Lemma first_occurrences_NoDup l : NoDup l → first_occurrences l = l.
Proof.
  induction 1 as [|y l Hy _ IH]; [done |].
  cbn [first_occurrences]. by rewrite IH, filter_ne_absent.
Qed.

(** The insertion loop of [dict.fromkeys], from any keys already held. *)
Lemma fromkeys_from acc l :
  foldl (λ keys k, if decide (k ∈ keys) then keys else keys ++ [k]) acc l =
    acc ++ filter (λ y, y ∉ acc) (first_occurrences l).
Proof.
  revert acc. induction l as [|x l IH]; intros acc.
  - cbn. by rewrite app_nil_r.
  - cbn [foldl first_occurrences]. destruct (decide (x ∈ acc)) as [Hin|Hin].
    + rewrite IH, filter_cons_False by (intros Hx; by apply Hx).
      f_equal. rewrite list_filter_filter. apply list_filter_iff.
      intros y. split; [| by intros [Hy _]]. intros Hy. split; [done |].
      by intros ->.
    + rewrite IH, filter_cons_True by done.
      rewrite <- app_assoc. cbn [app]. do 2 f_equal.
      rewrite list_filter_filter. apply list_filter_iff.
      intros y. rewrite elem_of_app, list_elem_of_singleton. tauto.
Qed.

Lemma fromkeys_first_occurrences l :
  dict_fromkeys_keys l = first_occurrences l.
Proof.
  unfold dict_fromkeys_keys. rewrite fromkeys_from. cbn [app].
  induction (first_occurrences l) as [|y k IH]; [done |].
  rewrite filter_cons_True by apply not_elem_of_nil. by rewrite IH.
Qed.

Lemma fromkeys_snoc l x :
  dict_fromkeys_keys (l ++ [x]) =
    if decide (x ∈ dict_fromkeys_keys l)
    then dict_fromkeys_keys l else dict_fromkeys_keys l ++ [x].
Proof. unfold dict_fromkeys_keys. by rewrite foldl_app. Qed.

Lemma fromkeys_idemp l :
  dict_fromkeys_keys (dict_fromkeys_keys l) = dict_fromkeys_keys l.
Proof.
  rewrite !fromkeys_first_occurrences.
  apply first_occurrences_NoDup, NoDup_first_occurrences.
Qed.

(** Deduplicating after every append is deduplicating once at the end. *)
Lemma fromkeys_append_deduplicated l x :
  dict_fromkeys_keys (dict_fromkeys_keys l ++ [x]) = dict_fromkeys_keys (l ++ [x]).
Proof. by rewrite !fromkeys_snoc, fromkeys_idemp. Qed.

End Curator.

Section CurateSources.

Lemma curate_sources_from (seen rest : list Chunk) :
  foldl (λ curated_sources chunk,
           dict_fromkeys_keys (curated_sources ++ [source_of_chunk chunk]))
        (dict_fromkeys_keys (map source_of_chunk seen)) rest =
    dict_fromkeys_keys (map source_of_chunk (seen ++ rest)).
Proof.
  revert seen. induction rest as [|chunk rest IH]; intros seen.
  - by rewrite app_nil_r.
  - cbn [foldl]. rewrite fromkeys_append_deduplicated.
    replace (map source_of_chunk seen ++ [source_of_chunk chunk])
      with (map source_of_chunk (seen ++ [chunk])) by by rewrite map_app.
    rewrite IH. by rewrite <- app_assoc.
Qed.

Lemma curate_sources_first_occurrences (sources : list Chunk) :
  curate_sources sources = first_occurrences (map source_of_chunk sources).
Proof.
  unfold curate_sources.
  rewrite <- fromkeys_first_occurrences. apply (curate_sources_from []).
Qed.

End CurateSources.

(** ** Properties of the history compactor *)

Section HistoryProperties.

(** C1, at the eleven-entry history [(u1, a1); ...; (u11, a11)], whose
    message sequence has 22 messages: [build_history] returns 20 messages,
    but they are the first 20 ([history_messages[:20]]), so the oldest
    message [u1] is kept and the newest message [a11] is dropped; the
    result is not the most recent 20. *)
Theorem build_history_keeps_oldest_twenty :
  length (history_messages eleven_turns) = 22
  ∧ length (build_history eleven_turns) = 20
  ∧ build_history eleven_turns = take 20 (history_messages eleven_turns)
  ∧ head (build_history eleven_turns) = Some (mkChatMessage "u1" USER)
  ∧ last (history_messages eleven_turns) = Some (mkChatMessage "a11" ASSISTANT)
  ∧ last (build_history eleven_turns) = Some (mkChatMessage "a10" ASSISTANT)
  ∧ build_history eleven_turns ≠ most_recent 20 (history_messages eleven_turns).
Proof.
  repeat split; try (vm_compute; reflexivity).
  intros H. vm_compute in H. discriminate H.
Qed.

(** C3, the scenario as written: the assistant text
    ["Hello! Sources: \n\n\n1. a.pdf (page 1)"] does not contain the
    separator ["\n\n Sources: \n"], so the messages built for it differ
    from [user:"Hi", assistant:"Hello!", user:"Tell me more"]. *)
Lemma scenario_as_written_keeps_citations :
  all_messages EmptyString "Tell me more" scenario_history_as_written
    ≠ scenario_messages.
Proof. intros H. vm_compute in H. discriminate H. Qed.

(** C3, amended: with the assistant text as the streamer produces it,
    ["Hello!" + SOURCES_SEPARATOR + "\n\n\n1. a.pdf (page 1) \n\n"], mode
    "Query Files", no document selected and no system prompt, generation
    is invoked on exactly [user:"Hi", assistant:"Hello!",
    user:"Tell me more"]: the assistant text is cut at the first
    separator. *)
Theorem scenario_as_streamed_strips_citations :
  ∀ (svc : Services) (active_mode : string),
    head (events (_chat svc "Tell me more" scenario_history_as_streamed
                    "Query Files"
                    (mkPrivateGptUi active_mode EmptyString None)))
      = Some (StreamChat scenario_messages true None)
    ∧ all_messages EmptyString "Tell me more" scenario_history_as_streamed
      = scenario_messages.
Proof.
  intros svc active_mode. split; [| by vm_compute].
  rewrite chat_query_all_files by done. unfold events. cbn [snd head].
  do 2 f_equal.
Qed.

(** C5: compacting, reading the result back as a history and compacting
    again gives the same messages, for every history. *)
Theorem build_history_idempotent :
  ∀ history : list Interaction,
    build_history (as_history (build_history history)) = build_history history.
Proof.
  intros history. rewrite (build_history_entries history).
  rewrite as_history_messages. unfold build_history.
  rewrite history_messages_strip.
  change 20 with (2 * 10). rewrite take_history_messages.
  by rewrite take_take, Nat.min_id.
Qed.

End HistoryProperties.

(** ** Properties of the source curator *)

Section CuratorProperties.

(** C2, as stated, fails: two passages of the same file and page with
    different [text] are two different [Source]s and both are kept (the
    output has length 2), while there is one distinct (file, page) pair. *)
Lemma curate_sources_keeps_same_page_passages :
  length (curate_sources same_page_passages)
    ≠ length (first_occurrences (map file_page same_page_passages)).
Proof. intros H. vm_compute in H. discriminate H. Qed.

(** C2, amended: [curate_sources] collapses the passages with equal
    (file, page, text): its output is the sources of the passages at their
    first occurrence, without repetition, and its length is the number of
    distinct (file, page, text) triples. *)
Theorem curate_sources_stable_dedup :
  ∀ sources : list Chunk,
    curate_sources sources = first_occurrences (map source_of_chunk sources)
    ∧ NoDup (curate_sources sources)
    ∧ (∀ source, source ∈ curate_sources sources
                 ↔ source ∈ map source_of_chunk sources)
    ∧ length (curate_sources sources)
      = size (list_to_set (map source_of_chunk sources) : gset Source).
Proof.
  intros sources. rewrite curate_sources_first_occurrences.
  split; [done |]. split; [apply NoDup_first_occurrences |].
  split; [intros source; apply elem_of_first_occurrences |].
  rewrite <- (size_list_to_set (C := gset Source))
    by apply NoDup_first_occurrences.
  f_equal. apply set_eq. intros source.
  by rewrite !elem_of_list_to_set, elem_of_first_occurrences.
Qed.

End CuratorProperties.

(** ** Properties of the response streamer *)

Section StreamerProperties.






End StreamerProperties.

(** ** Properties of the mode dispatcher *)

Section DispatcherProperties.

Lemma elem_of_service_calls (ev : Event) (evs : list Event) :
  ev ∈ evs → is_call ev = true → ev ∈ service_calls evs.
Proof.
  intros Hin Hcall. unfold service_calls.
  apply list_elem_of_filter. split; [by rewrite Hcall | done].
Qed.

Lemma service_calls_cons_call (ev : Event) (evs : list Event) :
  is_call ev = true → service_calls (ev :: evs) = ev :: service_calls evs.
Proof.
  intros Hcall. unfold service_calls. apply filter_cons_True. by rewrite Hcall.
Qed.



(** C7: a mode outside the three known tags yields nothing: the invocation
    returns normally, with no snapshot and no call to a service. *)
Theorem chat_unknown_mode_is_silent :
  ∀ (svc : Services) (message : string) (history : list Interaction)
    (mode : string) (self : PrivateGptUi),
    mode ∉ MODES →
    outcome (_chat svc message history mode self) = inr tt
    ∧ snapshots (events (_chat svc message history mode self)) = []
    ∧ service_calls (events (_chat svc message history mode self)) = []
    ∧ events (_chat svc message history mode self) = [].
Proof.
  intros svc message history mode self Hmode.
  by rewrite chat_unknown.
Qed.

Lemma chat_unknown_mode_is_silent_witness :
  ("Summarize Files" ∉ MODES)
  ∧ events (_chat (demo_services []) "Hi" [] "Summarize Files" (demo_self None))
    = [].
Proof.
  assert (Hmode : "Summarize Files" ∉ MODES).
  { unfold MODES. intros Hin.
    repeat (apply elem_of_cons in Hin as [Hin | Hin]; [discriminate Hin |]).
    by apply elem_of_nil in Hin. }
  split; [exact Hmode |].
  apply (chat_unknown_mode_is_silent (demo_services []) "Hi" []
           "Summarize Files" (demo_self None) Hmode).
Defined.

(** C8: in "LLM Chat (no context from files)" mode the only service call is
    the generation call, with context disabled and no filter; the retrieval
    service is never called. *)
Theorem llm_chat_never_retrieves :
  ∀ (svc : Services) (message : string) (history : list Interaction)
    (self : PrivateGptUi),
    service_calls
      (events (_chat svc message history "LLM Chat (no context from files)" self))
    = [StreamChat (all_messages (_system_prompt self) message history)
         false None]
    ∧ ∀ text limit prev_next_chunks,
        RetrieveRelevant text limit prev_next_chunks
          ∉ events (_chat svc message history
                      "LLM Chat (no context from files)" self).
Proof.
  intros svc message history self.
  assert (Hcalls :
    service_calls
      (events (_chat svc message history "LLM Chat (no context from files)" self))
    = [StreamChat (all_messages (_system_prompt self) message history)
         false None]).
  { rewrite chat_llm. unfold events at 1. cbn [snd].
    by rewrite service_calls_cons_call, service_calls_yield_deltas. }
  split; [exact Hcalls |].
  intros text limit prev_next_chunks Hin.
  apply elem_of_service_calls in Hin; [| done].
  rewrite Hcalls in Hin. apply list_elem_of_singleton in Hin. discriminate Hin.
Qed.

(** C9: in "Query Files" mode with a document selected, an ingested
    document whose metadata is absent or lacks "file_name" makes the
    invocation raise ([TypeError] or [KeyError]) after listing the ingested
    documents: generation is not invoked and nothing is yielded; the file
    listing on the same documents returns normally. *)
Theorem query_files_raises_on_unnamed_document :
  ∀ (svc : Services) (message : string) (history : list Interaction)
    (self : PrivateGptUi) (selected : string),
    _selected_filename self = Some selected →
    Exists unnamed (list_ingested svc) →
    (∃ e, (e = TypeError ∨ e = KeyError "file_name")
          ∧ _chat svc message history "Query Files" self
            = (inl e, self, [ListIngested]))
    ∧ ∃ files, _list_ingested_files svc self = (inr files, self, [ListIngested]).
Proof.
  intros svc message history self selected Hsel Hex. split.
  - destruct (collect_docs_ids_raises _ selected [] self Hex) as (e & He & Hrun).
    exists e. split; [done |].
    by rewrite (chat_query_selected _ _ _ _ _ _ Hsel Hrun).
  - unfold _list_ingested_files. rewrite bind_emit. eauto.
Qed.

Lemma query_files_raises_on_unnamed_document_witness :
  (_selected_filename (demo_self (Some "a.pdf")) = Some "a.pdf"
   ∧ Exists unnamed
       (list_ingested (demo_services [a_pdf_page_1; no_metadata_doc])))
  ∧ ∃ e, (e = TypeError ∨ e = KeyError "file_name")
         ∧ _chat (demo_services [a_pdf_page_1; no_metadata_doc]) "Hi" []
             "Query Files" (demo_self (Some "a.pdf"))
           = (inl e, demo_self (Some "a.pdf"), [ListIngested]).
Proof.
  assert (Hex : Exists unnamed
                  (list_ingested (demo_services [a_pdf_page_1; no_metadata_doc]))).
  { apply Exists_cons_tl, Exists_cons_hd. by left. }
  split; [split; [reflexivity | exact Hex] |].
  exact (proj1 (query_files_raises_on_unnamed_document
                  (demo_services [a_pdf_page_1; no_metadata_doc]) "Hi" []
                  (demo_self (Some "a.pdf")) "a.pdf" eq_refl Hex)).
Defined.

(** The handlers of the file list do write the selection. *)
Lemma selected_a_file_writes (value : string) (self : PrivateGptUi) :
  _selected_filename (self_after (_selected_a_file value self)) = Some value.
Proof. reflexivity. Qed.

Lemma deselect_selected_file_writes (self : PrivateGptUi) :
  _selected_filename (self_after (_deselect_selected_file self)) = None.
Proof. reflexivity. Qed.

Lemma chat_cases (mode : string) :
  mode = "Query Files" ∨ mode = "LLM Chat (no context from files)"
  ∨ mode = "Search Files" ∨ mode ∉ MODES.
Proof.
  destruct (decide (mode = "Query Files")) as [|H1]; [by left |].
  destruct (decide (mode = "LLM Chat (no context from files)")) as [|H2];
    [by right; left |].
  destruct (decide (mode = "Search Files")) as [|H3]; [by right; right; left |].
  right; right; right. unfold MODES. intros Hin.
  repeat (apply elem_of_cons in Hin as [Hin | Hin]; [done |]).
  by apply elem_of_nil in Hin.
Qed.

(** C10: every chat invocation, in any mode and whether it returns or
    raises, leaves the fields of [self] (the active mode, the system prompt
    and the selected file name) as they were. *)
Theorem chat_leaves_session_state :
  ∀ (svc : Services) (message : string) (history : list Interaction)
    (mode : string) (self : PrivateGptUi),
    self_after (_chat svc message history mode self) = self.
Proof.
  intros svc message history mode self.
  destruct (chat_cases mode) as [-> | [-> | [-> | Hmode]]].
  - destruct (_selected_filename self) as [selected|] eqn:Hsel.
    + destruct (collect_docs_ids_quiet (list_ingested svc) selected [] self)
        as [[e | ids] Hrun];
        by rewrite (chat_query_selected _ _ _ _ _ _ Hsel Hrun).
    + by rewrite chat_query_all_files.
  - by rewrite chat_llm.
  - by destruct (chat_search svc message history self) as [answer ->].
  - by rewrite chat_unknown.
Qed.

End DispatcherProperties.

(** ** More on the history compactor *)

Section HistoryShape.

Lemma prefix_append_iff (sep s : string) :
  String.prefix sep s = true ↔ ∃ b, s = sep +:+ b.
Proof.
  revert s. induction sep as [|c sep IH]; intros s.
  - split; [intros _; exists s; reflexivity | intros _; by destruct s].
  - destruct s as [|d s]; cbn [String.prefix].
    + split; [done | intros [b Hb]; rewrite append_cons in Hb; discriminate Hb].
    + destruct (Ascii.ascii_dec c d) as [->|Hne].
      * rewrite IH. split; intros [b Hb]; exists b.
        -- by rewrite append_cons, Hb.
        -- rewrite append_cons in Hb. by injection Hb.
      * split; [done |]. intros [b Hb]. rewrite append_cons in Hb.
        injection Hb as Hcd _. by destruct Hne.
Qed.

(** [str_contains] is the occurrence of [sep] somewhere in [s]. *)
Lemma str_contains_iff (sep s : string) :
  str_contains sep s = true ↔ ∃ a b, s = a +:+ sep +:+ b.
Proof.
  induction s as [|c s IH]; cbn [str_contains].
  - rewrite orb_false_r, prefix_append_iff. split.
    + intros [b Hb]. exists EmptyString, b. exact Hb.
    + intros (a & b & Hab). destruct a as [|x a]; [by exists b |].
      rewrite append_cons in Hab. discriminate Hab.
  - rewrite orb_true_iff, prefix_append_iff, IH. split.
    + intros [[b Hb] | (a & b & Hab)].
      * exists EmptyString, b. exact Hb.
      * exists (String c a), b. by rewrite append_cons, Hab.
    + intros (a & b & Hab). destruct a as [|x a].
      * left. by exists b.
      * right. rewrite append_cons in Hab. injection Hab as _ Hab. by exists a, b.
Qed.

Lemma str_contains_before (sep s : string) :
  sep ≠ EmptyString → str_contains sep (PyStr.before sep s) = false.
Proof.
  intros Hsep. induction s as [|c s IH].
  - cbn. by destruct sep.
  - cbn [PyStr.before].
    destruct (String.prefix sep (String c s)) eqn:Hp.
    + cbn. by destruct sep.
    + cbn [str_contains]. rewrite IH, orb_false_r.
      destruct (String.prefix sep (String c (PyStr.before sep s))) eqn:Hq; [| done].
      destruct sep as [|d sep]; [done |].
      cbn [String.prefix] in Hp, Hq.
      destruct (Ascii.ascii_dec d c); [| done].
      apply prefix_before in Hq. congruence.
Qed.

Lemma before_absent (sep s : string) :
  str_contains sep s = false → PyStr.before sep s = s.
Proof.
  induction s as [|c s IH]; [done |].
  cbn [str_contains PyStr.before]. intros [Hp Hs]%orb_false_iff.
  by rewrite Hp, IH.
Qed.

Lemma roles_history_messages (history : list Interaction) :
  map role (history_messages history)
  = concat (replicate (length history) [USER; ASSISTANT]).
Proof.
  induction history as [|i h IH]; [done |].
  rewrite history_messages_cons. cbn [map role length replicate concat app].
  by rewrite IH.
Qed.

(** X1: [build_history] never cuts a history entry in two: its result is the
    messages of the first ten entries, an even number of messages whose
    roles alternate user, assistant. *)
Theorem build_history_whole_entries :
  ∀ history : list Interaction,
    build_history history = history_messages (take 10 history)
    ∧ length (build_history history) = 2 * (length history `min` 10)
    ∧ map role (build_history history)
      = concat (replicate (length history `min` 10) [USER; ASSISTANT]).
Proof.
  intros history. rewrite build_history_entries.
  split; [done |].
  rewrite history_messages_length, roles_history_messages, length_take.
  by rewrite (Nat.min_comm 10).
Qed.

(** X2: no assistant message of the compacted history contains the
    separator, and the user messages are the user texts of the first ten
    entries, unchanged. *)
Theorem build_history_contents :
  ∀ history : list Interaction,
    Forall (λ m, role m = USER
                 ∨ str_contains SOURCES_SEPARATOR (content m) = false)
           (build_history history)
    ∧ map content (filter (λ m, role m = USER) (build_history history))
      = map fst (take 10 history).
Proof.
  intros history. rewrite build_history_entries.
  induction (take 10 history) as [|i h [IH1 IH2]]; [by split |].
  rewrite history_messages_cons. split.
  - constructor; [by left |]. constructor; [| done].
    right. by apply str_contains_before.
  - rewrite filter_cons_True by done. rewrite filter_cons_False by done.
    cbn [map content]. by rewrite IH2.
Qed.

(** X3: an assistant text that does not contain the separator is passed on
    whole; in particular a citation block written with another separator is
    kept. *)
Theorem build_history_keeps_unmarked_text :
  ∀ history : list Interaction,
    Forall (λ interaction, str_contains SOURCES_SEPARATOR (snd interaction) = false)
           history →
    build_history history
    = take 20 (concat (map (λ interaction : Interaction,
                              [ mkChatMessage (fst interaction) USER;
                                mkChatMessage (snd interaction) ASSISTANT ])
                           history)).
Proof.
  intros history Hall. unfold build_history. f_equal.
  induction Hall as [|i h Hi _ IH]; [done |].
  rewrite history_messages_cons. cbn [map concat app].
  by rewrite IH, before_absent.
Qed.

Lemma build_history_keeps_unmarked_text_witness :
  Forall (λ interaction, str_contains SOURCES_SEPARATOR (snd interaction) = false)
         scenario_history_as_written
  ∧ build_history scenario_history_as_written
    = [ mkChatMessage "Hi" USER;
        mkChatMessage ("Hello! Sources: " +:+ PyStr.LF +:+ PyStr.LF
                         +:+ PyStr.LF +:+ "1. a.pdf (page 1)") ASSISTANT ].
Proof.
  assert (Hall : Forall (λ interaction,
                           str_contains SOURCES_SEPARATOR (snd interaction) = false)
                        scenario_history_as_written).
  { repeat constructor. }
  split; [exact Hall |].
  exact (build_history_keeps_unmarked_text scenario_history_as_written Hall).
Defined.

(** X4: the message sequence sent to generation ends with the new user
    message, starts with the system prompt exactly when one is set, holds no
    other system message, and has at most 22 messages: the cap of 20 applies
    to the history alone. *)
Theorem all_messages_shape :
  ∀ (system_prompt message : string) (history : list Interaction),
    last (all_messages system_prompt message history)
    = Some (mkChatMessage message USER)
    ∧ filter (λ m, role m = SYSTEM) (all_messages system_prompt message history)
      = (if decide (system_prompt ≠ EmptyString)
         then [mkChatMessage system_prompt SYSTEM] else [])
    ∧ head (all_messages system_prompt message history)
      = (if decide (system_prompt ≠ EmptyString)
         then Some (mkChatMessage system_prompt SYSTEM)
         else head (build_history history ++ [mkChatMessage message USER]))
    ∧ length (all_messages system_prompt message history)
      = (if decide (system_prompt ≠ EmptyString) then 1 else 0)
        + 2 * (length history `min` 10) + 1
    ∧ length (all_messages system_prompt message history) ≤ 22.
Proof.
  intros system_prompt message history.
  assert (Hsys : filter (λ m, role m = SYSTEM)
                   (build_history history ++ [mkChatMessage message USER]) = []).
  { rewrite filter_app, build_history_entries.
    rewrite (filter_cons_False _ _ _) by done. rewrite app_nil_r.
    induction (take 10 history) as [|i h IH]; [done |].
    rewrite history_messages_cons. by rewrite !filter_cons_False by done. }
  assert (Hlen : length (build_history history ++ [mkChatMessage message USER])
                 = 2 * (length history `min` 10) + 1).
  { rewrite length_app, build_history_entries, history_messages_length.
    rewrite length_take, (Nat.min_comm 10). done. }
  unfold all_messages. destruct (decide (system_prompt ≠ EmptyString)).
  - split; [by rewrite last_cons, last_snoc |].
    split; [by rewrite filter_cons_True, Hsys by done |].
    split; [done |]. cbn [length]. rewrite Hlen. split; lia.
  - split; [by rewrite last_snoc |].
    split; [done |]. split; [done |]. rewrite Hlen. split; lia.
Qed.

End HistoryShape.

(** ** More on the source curator and the citation block *)

Section Citations.

Lemma first_occurrences_app {A} `{EqDecision A} (l1 l2 : list A) :
  first_occurrences (l1 ++ l2)
  = first_occurrences l1 ++ filter (λ y, y ∉ l1) (first_occurrences l2).
Proof.
  induction l1 as [|x l1 IH].
  - cbn [app first_occurrences]. symmetry.
    induction (first_occurrences l2) as [|y k IHk]; [done |].
    rewrite filter_cons_True by apply not_elem_of_nil. by rewrite IHk.
  - cbn [app first_occurrences]. rewrite IH, filter_app. do 2 f_equal.
    rewrite list_filter_filter. apply list_filter_iff.
    intros y. rewrite not_elem_of_cons. tauto.
Qed.

(** X5: retrieving more passages never reorders or removes the sources
    already curated: the sources of a longer list start with the sources of
    the list it extends, followed by the new ones. *)
Theorem curate_sources_app :
  ∀ sources more : list Chunk,
    curate_sources (sources ++ more)
    = curate_sources sources
        ++ filter (λ source, source ∉ curate_sources sources) (curate_sources more)
    ∧ curate_sources sources `prefix_of` curate_sources (sources ++ more)
    ∧ length (curate_sources sources) ≤ length sources.
Proof.
  intros sources more. rewrite !curate_sources_first_occurrences.
  rewrite map_app, first_occurrences_app.
  split; [| split].
  - f_equal. apply list_filter_iff. intros source.
    by rewrite elem_of_first_occurrences.
  - by eexists.
  - rewrite <- (length_map source_of_chunk sources).
    induction (map source_of_chunk sources) as [|x l IH]; [done |].
    cbn [first_occurrences length].
    pose proof (length_filter (λ y, y ≠ x) (first_occurrences l)). lia.
Qed.

Lemma imap_shift {A B} (f : nat → A → B) (n : nat) (l : list A) :
  imap (λ i, f (n + S i)) l = imap (λ i, f (S n + i)) l.
Proof. apply imap_ext. intros i x _. f_equal. lia. Qed.

(** The loop of [yield_deltas] over the curated sources, started after the
    sources [seen]. *)
Lemma sources_loop_from (seen rest : list Source) (sources_text : string) :
  sources_loop rest (S (length seen)) sources_text
    (list_to_set (map citation_key seen))
  = sources_text
      +:+ concat_lines
            (map (λ entry, citation_line (S entry.1) entry.2)
               (filter (λ entry, citation_key entry.2
                                   ∉ map citation_key (take entry.1 (seen ++ rest)))
                       (imap (λ i source, (length seen + i, source)) rest))).
Proof.
  revert seen sources_text. induction rest as [|source rest IH];
    intros seen sources_text.
  - cbn. by rewrite append_nil_r.
  - cbn [sources_loop]. rewrite imap_cons. fold (citation_key source).
    assert (Hseen : take (length seen + 0) (seen ++ source :: rest) = seen).
    { by rewrite Nat.add_0_r, take_app_length. }
    assert (Hcons : seen ++ source :: rest = (seen ++ [source]) ++ rest).
    { by rewrite <- app_assoc. }
    assert (Hlen : length (seen ++ [source]) = S (length seen)).
    { rewrite length_app. cbn. lia. }
    assert (Himap : imap ((λ i s, (length seen + i, s)) ∘ S) rest
                    = imap (λ i s, (length (seen ++ [source]) + i, s)) rest).
    { apply imap_ext. intros i x _. cbn. f_equal. lia. }
    rewrite Himap.
    destruct (decide (citation_key source
                        ∉ (list_to_set (map citation_key seen) : gset string)))
      as [Hnew | Hold].
    + rewrite filter_cons_True; last first.
      { cbn [fst snd]. rewrite Hseen.
        by rewrite elem_of_list_to_set in Hnew. }
      replace (list_to_set (map citation_key seen) ∪ {[citation_key source]})
        with (list_to_set (map citation_key (seen ++ [source])) : gset string);
        last first.
      { rewrite map_app. apply list_to_set_snoc_L. }
      rewrite <- Hlen, IH, <- Hcons. cbn [map concat_lines foldr fst snd].
      rewrite Nat.add_0_r, Hlen. by rewrite append_assoc.
    + rewrite filter_cons_False; last first.
      { cbn [fst snd]. rewrite Hseen. intros Hnew. apply Hold.
        by rewrite elem_of_list_to_set. }
      replace (list_to_set (map citation_key seen))
        with (list_to_set (map citation_key (seen ++ [source])) : gset string);
        last first.
      { rewrite map_app. cbn [map]. rewrite list_to_set_snoc_L.
        apply dec_stable in Hold. apply set_eq. intros key.
        rewrite elem_of_union, elem_of_singleton.
        split; [intros [Hin | ->]; assumption | by left]. }
      rewrite <- Hlen, IH, <- Hcons. done.
Qed.

(** X6: the citation block holds one line per distinct key
    [f"{file}-{page}"], for the first source with that key, and the line
    carries the 1-based position of that source in the curated list, so the
    numbers skip the positions of the sources left out. *)
Theorem sources_text_lines :
  ∀ cur_sources : list Source,
    sources_text_of cur_sources
    = (PyStr.LF +:+ PyStr.LF +:+ PyStr.LF)
        +:+ concat_lines
              (map (λ entry, citation_line (S entry.1) entry.2)
                   (cited_entries cur_sources)).
Proof.
  intros cur_sources. unfold sources_text_of, cited_entries.
  apply (sources_loop_from [] cur_sources).
Qed.

(** Two passages of one page leave a gap in the numbers; two sources whose
    file and page join to the same key are cited once. *)
Lemma cited_entries_skip :
  cited_entries [mkSource "a.pdf" "1" "x"; mkSource "a.pdf" "1" "y";
                 mkSource "b.pdf" "2" "z"]
  = [(0, mkSource "a.pdf" "1" "x"); (2, mkSource "b.pdf" "2" "z")].
Proof. by vm_compute. Qed.

Lemma cited_entries_key_clash :
  cited_entries [mkSource "a-b" "c" "x"; mkSource "a" "b-c" "y"]
  = [(0, mkSource "a-b" "c" "x")].
Proof. by vm_compute. Qed.

End Citations.

(** ** More on the streamer and the dispatcher *)

Section ChatModes.

Lemma sleeps_paced (snaps : list string) :
  length (filter (λ ev, is_sleep ev = true) (paced snaps)) = length snaps.
Proof.
  induction snaps as [|s snaps IH]; [done |].
  unfold paced in *. cbn [flat_map app].
  rewrite filter_cons_False by done. rewrite filter_cons_True by done.
  cbn [length]. by rewrite IH.
Qed.

(** X7: [yield_deltas] yields one snapshot per unit of the stream and one
    more at the end, pausing once per unit; when the sources are [None] or
    empty the last snapshot is the generated text with nothing appended, so
    an empty stream without sources yields the single snapshot [""]. *)
Theorem yield_deltas_counts :
  ∀ (completion_gen : CompletionGen) (self : PrivateGptUi),
    length (snapshots (events (yield_deltas completion_gen self)))
    = S (length (response completion_gen))
    ∧ length (filter (λ ev, is_sleep ev = true)
                (events (yield_deltas completion_gen self)))
      = length (response completion_gen)
    ∧ last (snapshots (events (yield_deltas completion_gen self)))
      = Some (generated (response completion_gen)
                +:+ sources_block completion_gen)
    ∧ sources_block (mkCompletionGen (response completion_gen) None) = EmptyString
    ∧ sources_block (mkCompletionGen (response completion_gen) (Some []))
      = EmptyString.
Proof.
  intros completion_gen self. rewrite snapshots_yield_deltas.
  split; [rewrite length_app, running_length; cbn; lia |].
  split.
  - rewrite yield_deltas_run. unfold events. cbn [snd].
    rewrite filter_app, length_app, sleeps_paced, running_length.
    rewrite filter_cons_False by done. cbn. lia.
  - split; [apply last_snoc | by split].
Qed.

(** X8: in "Search Files" mode the invocation makes exactly one call, the
    retrieval of the message with limit 4 and no neighbouring chunks, and
    yields exactly one snapshot, without pause; neither the history nor the
    fields of [self] influence it; an empty retrieval gives the single
    snapshot [""]. *)
Theorem chat_search_files :
  ∀ (svc : Services) (message : string) (history : list Interaction)
    (self : PrivateGptUi),
    _chat svc message history "Search Files" self
    = (inr tt, self,
       [RetrieveRelevant message 4 0;
        Yield (PyStr.join (PyStr.LF +:+ PyStr.LF +:+ PyStr.LF)
                 (imap (λ i source, search_entry (S i) source)
                    (curate_sources (retrieve_relevant svc message 4%Z 0%Z))))])
    ∧ (∀ history' self',
         events (_chat svc message history' "Search Files" self')
         = events (_chat svc message history "Search Files" self))
    ∧ (retrieve_relevant svc message 4%Z 0%Z = [] →
       snapshots (events (_chat svc message history "Search Files" self))
       = [EmptyString]).
Proof.
  intros svc message history self.
  assert (Hrun : ∀ history' self',
            _chat svc message history' "Search Files" self'
            = (inr tt, self',
               [RetrieveRelevant message 4 0;
                Yield (PyStr.join (PyStr.LF +:+ PyStr.LF +:+ PyStr.LF)
                         (imap (λ i source, search_entry (S i) source)
                            (curate_sources
                               (retrieve_relevant svc message 4%Z 0%Z))))])).
  { intros history' self'. unfold _chat. rewrite bind_get_self.
    destruct (decide ("Search Files" = "Query Files")) as [[=]|_].
    destruct (decide ("Search Files" = "LLM Chat (no context from files)"))
      as [[=]|_].
    destruct (decide ("Search Files" = "Search Files")) as [_|]; [| done].
    by rewrite bind_emit. }
  split; [apply Hrun |]. split.
  - intros history' self'. by rewrite !Hrun.
  - intros Hnone. rewrite Hrun, Hnone. reflexivity.
Qed.

Lemma chat_search_files_witness :
  retrieve_relevant (mkServices [] (λ _ _ _, demo_gen) (λ _ _ _, []))
    "What is X?" 4%Z 0%Z = []
  ∧ snapshots (events (_chat (mkServices [] (λ _ _ _, demo_gen) (λ _ _ _, []))
                         "What is X?" [] "Search Files" (demo_self None)))
    = [EmptyString].
Proof.
  split; [reflexivity |].
  exact (proj2 (proj2 (chat_search_files
                         (mkServices [] (λ _ _ _, demo_gen) (λ _ _ _, []))
                         "What is X?" [] (demo_self None))) eq_refl).
Defined.


(** With every document named, the selection resolves to the identifiers of
    the documents named like it. *)
Lemma collect_docs_ids_named (ingested : list IngestedDoc) (selected : string)
    (ids : list string) (self : PrivateGptUi) :
  Forall named ingested →
  collect_docs_ids ingested selected ids self
  = (inr (ids ++ matching_ids selected ingested), self, []).
Proof.
  intros Hall. revert ids.
  induction Hall as [|d rest [name Hname] _ IH]; intros ids.
  - unfold matching_ids. cbn. by rewrite app_nil_r.
  - cbn [collect_docs_ids]. unfold subscript_file_name.
    unfold doc_file_name in Hname.
    destruct (doc_metadata d) as [m|] eqn:Hm; [| done]. rewrite Hname, bind_ret.
    unfold matching_ids.
    destruct (decide (name = selected)) as [->|Hne].
    + rewrite filter_cons_True; last first.
      { unfold doc_file_name. by rewrite Hm. }
      rewrite IH. cbn [map]. by rewrite <- app_assoc.
    + rewrite filter_cons_False; last first.
      { unfold doc_file_name. rewrite Hm, Hname. congruence. }
      by rewrite IH.
Qed.


(** X9: in "Query Files" mode with a document selected and every ingested
    document named, the documents are listed once and generation is invoked
    with the filter of the identifiers of all documents named like the
    selection, in the order of the listing. *)
Theorem query_files_filter :
  ∀ (svc : Services) (message : string) (history : list Interaction)
    (self : PrivateGptUi) (selected : string),
    _selected_filename self = Some selected →
    Forall named (list_ingested svc) →
    service_calls (events (_chat svc message history "Query Files" self))
    = [ListIngested;
       StreamChat (all_messages (_system_prompt self) message history) true
         (Some (mkContextFilter (matching_ids selected (list_ingested svc))))].
Proof.
  intros svc message history self selected Hsel Hall.
  rewrite (chat_query_selected _ _ _ _ _ _ Hsel
             (collect_docs_ids_named _ selected [] self Hall)).
  unfold events at 1. cbn [snd app].
  by rewrite !service_calls_cons_call, service_calls_yield_deltas.
Qed.

Lemma query_files_filter_witness :
  (_selected_filename (demo_self (Some "a.pdf")) = Some "a.pdf"
   ∧ Forall named (list_ingested (demo_services [a_pdf_page_1; a_pdf_page_1])))
  ∧ service_calls (events (_chat (demo_services [a_pdf_page_1; a_pdf_page_1])
                             "Hi" [] "Query Files" (demo_self (Some "a.pdf"))))
    = [ListIngested;
       StreamChat (all_messages EmptyString "Hi" []) true
         (Some (mkContextFilter ["doc-1"; "doc-1"]))].
Proof.
  assert (Hall : Forall named
                   (list_ingested (demo_services [a_pdf_page_1; a_pdf_page_1]))).
  { repeat constructor; by exists "a.pdf". }
  split; [split; [reflexivity | exact Hall] |].
  exact (query_files_filter (demo_services [a_pdf_page_1; a_pdf_page_1]) "Hi" []
           (demo_self (Some "a.pdf")) "a.pdf" eq_refl Hall).
Defined.


(** X11: selecting a file and then chatting in "Query Files" mode restricts
    generation to the documents named like the selected value; deselecting
    and then chatting lifts the restriction whatever was selected before,
    without listing the documents. *)
Theorem select_then_chat :
  ∀ (svc : Services) (message : string) (history : list Interaction)
    (self : PrivateGptUi) (value : string),
    (Forall named (list_ingested svc) →
     service_calls (events (bind (_selected_a_file value)
                              (λ _, _chat svc message history "Query Files") self))
     = [ListIngested;
        StreamChat (all_messages (_system_prompt self) message history) true
          (Some (mkContextFilter (matching_ids value (list_ingested svc))))])
    ∧ service_calls (events (bind _deselect_selected_file
                               (λ _, _chat svc message history "Query Files") self))
      = [StreamChat (all_messages (_system_prompt self) message history) true None].
Proof.
  intros svc message history self value. split.
  - intros Hall.
    rewrite (bind_returns (_selected_a_file value) _ self
               (mkPrivateGptUi (mode self) (_system_prompt self) (Some value))
               tt []) by reflexivity.
    unfold events at 1. cbn [snd app].
    rewrite (chat_query_selected svc message history
               (mkPrivateGptUi (mode self) (_system_prompt self) (Some value))
               value _ eq_refl (collect_docs_ids_named _ value [] _ Hall)).
    unfold events at 1. cbn [snd app _system_prompt].
    by rewrite !service_calls_cons_call, service_calls_yield_deltas.
  - rewrite (bind_returns _deselect_selected_file _ self
               (mkPrivateGptUi (mode self) (_system_prompt self) None)
               tt []) by reflexivity.
    unfold events at 1. cbn [snd app].
    rewrite chat_query_all_files by done.
    unfold events at 1. cbn [snd app _system_prompt].
    by rewrite !service_calls_cons_call, service_calls_yield_deltas.
Qed.

Lemma select_then_chat_witness :
  Forall named (list_ingested (demo_services [a_pdf_page_1]))
  ∧ service_calls (events (bind (_selected_a_file "a.pdf")
                             (λ _, _chat (demo_services [a_pdf_page_1]) "Hi" []
                                     "Query Files") (demo_self None)))
    = [ListIngested;
       StreamChat (all_messages EmptyString "Hi" []) true
         (Some (mkContextFilter ["doc-1"]))].
Proof.
  assert (Hall : Forall named (list_ingested (demo_services [a_pdf_page_1]))).
  { repeat constructor; by exists "a.pdf". }
  split; [exact Hall |].
  exact (proj1 (select_then_chat (demo_services [a_pdf_page_1]) "Hi" []
                  (demo_self None) "a.pdf") Hall).
Defined.


End ChatModes.

(** ** The handlers of the file list *)

Section RunningHandlers.

Context {S E A B : Type}.

Lemma ebind_eret (a : A) (k : A → Eff S E B) (s : S) :
  ebind (eret a) k s = k a s.
Proof. unfold ebind, eret. by destruct (k a s) as [[? ?] ?]. Qed.

Lemma ebind_returns (m : Eff S E A) (k : A → Eff S E B) (s s' : S) (a : A)
    (calls : list E) :
  m s = (inr a, s', calls) →
  ebind m k s
  = (eff_outcome (k a s'), eff_state (k a s'), calls ++ eff_calls (k a s')).
Proof. intros H. unfold ebind. rewrite H. by destruct (k a s') as [[? ?] ?]. Qed.

Lemma ebind_raises (m : Eff S E A) (k : A → Eff S E B) (s s' : S) (e : PyExn)
    (calls : list E) :
  m s = (inl e, s', calls) → ebind m k s = (inl e, s', calls).
Proof. intros H. unfold ebind. by rewrite H. Qed.

End RunningHandlers.

Section FileHandlers.

Context {Store : Type} (ingest : IngestService Store).

Implicit Types (s : PrivateGptUi * Store) (d : IngestedDoc).

Lemma truthy_dict_named d name :
  doc_file_name d = Some name →
  ∃ m, truthy_dict (doc_metadata d) = Some m ∧ m !! "file_name" = Some name.
Proof.
  unfold doc_file_name, truthy_dict.
  destruct (doc_metadata d) as [m|]; [| done]. intros Hname. exists m.
  destruct (decide (m = ∅)) as [->|_]; [by rewrite lookup_empty in Hname | done].
Qed.

Lemma truthy_dict_falsy d :
  truthy_dict (doc_metadata d) = None → doc_file_name d = None.
Proof.
  unfold doc_file_name, truthy_dict.
  destruct (doc_metadata d) as [m|]; [| done].
  destruct (decide (m = ∅)) as [->|_]; [by rewrite lookup_empty | done].
Qed.

Lemma truthy_dict_Some d m :
  truthy_dict (doc_metadata d) = Some m → doc_file_name d = m !! "file_name".
Proof.
  unfold doc_file_name, truthy_dict.
  destruct (doc_metadata d) as [m'|]; [| done].
  destruct (decide (m' = ∅)); [done |]. by intros [= ->].
Qed.

Lemma delete_each_run (doc_ids : list string) s :
  Files.delete_each ingest doc_ids s
  = (inr tt, (s.1, deleted_from ingest doc_ids s.2), map CallDelete doc_ids).
Proof.
  revert s. induction doc_ids as [|doc_id' rest IH]; intros [self store]; [done |].
  cbn [Files.delete_each].
  rewrite (ebind_returns _ _ _ (self, ingest_delete ingest doc_id' store) tt
             [CallDelete doc_id']) by done.
  by rewrite IH.
Qed.

Lemma deleted_from_app (ids ids' : list string) (store : Store) :
  deleted_from ingest (ids ++ ids') store
  = deleted_from ingest ids' (deleted_from ingest ids store).
Proof. unfold deleted_from. apply foldl_app. Qed.

Lemma upload_collect_run (ingested : list IngestedDoc) (file_names : list string)
    (ids : list string) s :
  Forall well_formed ingested →
  Files.upload_collect ingested file_names ids s
  = (inr (ids ++ map doc_id (filter (named_among file_names) ingested)), s, []).
Proof.
  intros Hall. revert ids. induction Hall as [|d rest Hd _ IH]; intros ids.
  - cbn. by rewrite app_nil_r.
  - cbn [Files.upload_collect]. destruct Hd as [Hfalsy | [name Hname]].
    + rewrite Hfalsy, IH.
      rewrite filter_cons_False
        by (unfold named_among; rewrite (truthy_dict_falsy _ Hfalsy); tauto).
      reflexivity.
    + destruct (truthy_dict_named _ _ Hname) as (m & -> & ->).
      destruct (decide (name ∈ file_names)) as [Hin | Hout].
      * rewrite IH.
        rewrite filter_cons_True by (unfold named_among; by rewrite Hname).
        cbn [map]. by rewrite <- app_assoc.
      * rewrite IH.
        rewrite filter_cons_False by (unfold named_among; by rewrite Hname).
        reflexivity.
Qed.

Lemma upload_collect_raises (ingested : list IngestedDoc)
    (file_names : list string) (ids : list string) s :
  Exists malformed ingested →
  Files.upload_collect ingested file_names ids s
  = (inl (KeyError "file_name"), s, []).
Proof.
  revert ids. induction ingested as [|d rest IH]; intros ids Hex.
  - by apply Exists_nil in Hex.
  - cbn [Files.upload_collect].
    destruct (truthy_dict (doc_metadata d)) as [m|] eqn:Hm.
    + destruct (m !! "file_name") as [name|] eqn:Hname; [| done].
      apply Exists_cons in Hex as [(m' & Hm' & Hnone) | Hex]; [congruence |].
      destruct (decide (name ∈ file_names)) as [_|_]; by apply IH.
    + apply Exists_cons in Hex as [(m' & Hm' & _) | Hex]; [congruence |].
      by apply IH.
Qed.

Lemma list_ingested_files_run s :
  Files._list_ingested_files ingest s
  = (inr (Files.file_names_of (ingest_list_ingested ingest s.2)), s,
     [CallListIngested]).
Proof. reflexivity. Qed.

Lemma after_delete_run s :
  Files.after_delete ingest s
  = (inr [GrList (Files.file_names_of (ingest_list_ingested ingest s.2));
          GrButton false; GrButton false; GrTextbox "All files"],
     s, [CallListIngested]).
Proof. reflexivity. Qed.

Lemma elem_of_file_names_from (ingested : list IngestedDoc) (files : gset string)
    (name : string) :
  name ∈ foldl (λ (files : gset string) ingested_document,
                  match doc_metadata ingested_document with
                  | None => files
                  | Some m =>
                      files ∪ {[ default "[FILE NAME MISSING]" (m !! "file_name") ]}
                  end) files ingested
  ↔ name ∈ files
    ∨ ∃ d m, d ∈ ingested ∧ doc_metadata d = Some m
             ∧ default "[FILE NAME MISSING]" (m !! "file_name") = name.
Proof.
  revert files. induction ingested as [|d rest IH]; intros files.
  - cbn. split; [by left |]. intros [? | (d & m & Hin & _)]; [done |].
    by apply elem_of_nil in Hin.
  - cbn [foldl]. rewrite IH. split.
    + intros [Hin | (d' & m & Hin & Hm & Hname)].
      * destruct (doc_metadata d) as [m|] eqn:Hm; [| by left].
        apply elem_of_union in Hin as [Hin | Hin%elem_of_singleton]; [by left |].
        right. exists d, m. split; [apply list_elem_of_here | done].
      * right. exists d', m. split; [by apply list_elem_of_further | done].
    + intros [Hin | (d' & m & Hin & Hm & Hname)].
      * left. destruct (doc_metadata d); [| done].
        apply elem_of_union. by left.
      * apply elem_of_cons in Hin as [-> | Hin].
        -- left. rewrite Hm. apply elem_of_union. right.
           by apply elem_of_singleton.
        -- right. by exists d', m.
Qed.

End FileHandlers.

Section ListedFiles.

(** X13: [_list_ingested_files] never raises and lists a name exactly when
    some document with metadata carries it, or carries no file name and the
    name is ["[FILE NAME MISSING]"]; documents without metadata are
    skipped. *)
Theorem list_ingested_files_names :
  ∀ (svc : Services) (self : PrivateGptUi),
    ∃ files,
      _list_ingested_files svc self = (inr files, self, [ListIngested])
      ∧ ∀ name,
          name ∈ files
          ↔ ∃ d m, d ∈ list_ingested svc ∧ doc_metadata d = Some m
                   ∧ default "[FILE NAME MISSING]" (m !! "file_name") = name.
Proof.
  intros svc self. eexists. split.
  - unfold _list_ingested_files. rewrite bind_emit. reflexivity.
  - intros name. rewrite elem_of_file_names_from.
    split; [intros [Hin | H]; [by apply elem_of_empty in Hin | done] | by right].
Qed.

Lemma matching_ids_listed (ingested : list IngestedDoc) (name : string) :
  Forall named ingested →
  name ∈ Files.file_names_of ingested →
  ∃ doc_id' ids, matching_ids name ingested = doc_id' :: ids.
Proof.
  intros Hall Hin. unfold Files.file_names_of in Hin.
  apply elem_of_file_names_from in Hin as [Hin | (d & m & Hd & Hm & Hname)];
    [by apply elem_of_empty in Hin |].
  assert (Hfile : doc_file_name d = Some name).
  { rewrite Forall_forall in Hall. destruct (Hall d Hd) as [n Hn].
    unfold doc_file_name in *. rewrite Hm in *. rewrite Hn in Hname.
    cbn in Hname. by subst n. }
  unfold matching_ids.
  destruct (filter (λ d, doc_file_name d = Some name) ingested) as [|d' l] eqn:Hf.
  - exfalso. eapply (filter_nil_not_elem_of _ _ d Hf); done.
  - by eexists _, _.
Qed.

(** X14: with every ingested document named, selecting a name that the file
    list shows and chatting in "Query Files" mode restricts generation to a
    non-empty list of identifiers. *)
Theorem listed_name_resolves :
  ∀ (svc : Services) (message : string) (history : list Interaction)
    (self : PrivateGptUi) (name : string),
    _selected_filename self = Some name →
    Forall named (list_ingested svc) →
    name ∈ Files.file_names_of (list_ingested svc) →
    outcome (_list_ingested_files svc self)
    = inr (Files.file_names_of (list_ingested svc))
    ∧ ∃ doc_id' ids,
        service_calls (events (_chat svc message history "Query Files" self))
        = [ListIngested;
           StreamChat (all_messages (_system_prompt self) message history) true
             (Some (mkContextFilter (doc_id' :: ids)))].
Proof.
  intros svc message history self name Hsel Hall Hin.
  split; [unfold _list_ingested_files; by rewrite bind_emit |].
  destruct (matching_ids_listed _ _ Hall Hin) as (doc_id' & ids & Hids).
  exists doc_id', ids. rewrite <- Hids.
  rewrite (chat_query_selected _ _ _ _ _ _ Hsel
             (collect_docs_ids_named _ name [] self Hall)).
  unfold events at 1. cbn [snd app].
  by rewrite !service_calls_cons_call, service_calls_yield_deltas.
Qed.

Lemma listed_name_resolves_witness :
  (_selected_filename (demo_self (Some "a.pdf")) = Some "a.pdf"
   ∧ Forall named (list_ingested (demo_services [a_pdf_page_1]))
   ∧ "a.pdf" ∈ Files.file_names_of (list_ingested (demo_services [a_pdf_page_1])))
  ∧ ∃ doc_id' ids,
      service_calls (events (_chat (demo_services [a_pdf_page_1]) "Hi" []
                               "Query Files" (demo_self (Some "a.pdf"))))
      = [ListIngested;
         StreamChat (all_messages EmptyString "Hi" []) true
           (Some (mkContextFilter (doc_id' :: ids)))].
Proof.
  assert (Hall : Forall named (list_ingested (demo_services [a_pdf_page_1]))).
  { repeat constructor; by exists "a.pdf". }
  assert (Hin : "a.pdf" ∈ Files.file_names_of
                             (list_ingested (demo_services [a_pdf_page_1]))).
  { by vm_compute. }
  split; [split; [reflexivity | split; [exact Hall | exact Hin]] |].
  exact (proj2 (listed_name_resolves (demo_services [a_pdf_page_1]) "Hi" []
                  (demo_self (Some "a.pdf")) "a.pdf" eq_refl Hall Hin)).
Defined.

End ListedFiles.

Section FileHandlerProperties.

Context {Store : Type} (ingest : IngestService Store).

Implicit Types (s : PrivateGptUi * Store) (d : IngestedDoc).

(** X15: when every listed document has falsy metadata or a file name,
    [_upload_file] lists the documents once, deletes the documents whose
    file name is the name of an uploaded path, in the order of the listing,
    and then ingests every uploaded path under its name in one call;
    documents without metadata are left alone. *)
Theorem upload_file_replaces :
  ∀ (path_name : string → string) (files : list string) s,
    Forall well_formed (ingest_list_ingested ingest s.2) →
    Files._upload_file ingest path_name files s
    = (inr tt,
       (s.1,
        ingest_bulk_ingest ingest (map (λ path, (path_name path, path)) files)
          (deleted_from ingest
             (map doc_id (filter (named_among (map path_name files))
                            (ingest_list_ingested ingest s.2)))
             s.2)),
       [CallListIngested]
         ++ map CallDelete
              (map doc_id (filter (named_among (map path_name files))
                             (ingest_list_ingested ingest s.2)))
         ++ [CallBulkIngest (map (λ path, (path_name path, path)) files)]).
Proof.
  intros path_name files s Hall. unfold Files._upload_file.
  rewrite (ebind_returns _ _ s s (ingest_list_ingested ingest s.2)
             [CallListIngested]) by done.
  rewrite (ebind_returns _ _ s s _ [] (upload_collect_run _ _ [] s Hall)).
  cbn [app].
  set (ids := map doc_id (filter (named_among (map path_name files))
                            (ingest_list_ingested ingest s.2))).
  assert (Hdel : (if decide (0 < length ids)
                  then Files.delete_each ingest ids else eret tt) s
                 = (inr tt, (s.1, deleted_from ingest ids s.2), map CallDelete ids)).
  { destruct (decide (0 < length ids)) as [_ | Hempty].
    - apply delete_each_run.
    - destruct ids; [by destruct s | cbn in Hempty; lia]. }
  rewrite (ebind_returns _ _ s _ tt _ Hdel). reflexivity.
Qed.

(** X16: when a listed document has non-empty metadata without "file_name",
    [_upload_file] raises [KeyError] after the listing and before any
    deletion or ingestion: the store is left as it was. *)
Theorem upload_file_raises_first :
  ∀ (path_name : string → string) (files : list string) s,
    Exists malformed (ingest_list_ingested ingest s.2) →
    Files._upload_file ingest path_name files s
    = (inl (KeyError "file_name"), s, [CallListIngested]).
Proof.
  intros path_name files s Hex. unfold Files._upload_file.
  rewrite (ebind_returns _ _ s s (ingest_list_ingested ingest s.2)
             [CallListIngested]) by done.
  by rewrite (ebind_raises _ _ s s _ []
                (upload_collect_raises _ _ [] s Hex)).
Qed.

End FileHandlerProperties.

Section DeleteHandlers.

Context {Store : Type} (ingest : IngestService Store).

Implicit Types (s : PrivateGptUi * Store) (d : IngestedDoc).

(** X17: [_delete_all_files] never raises: it lists the documents, deletes
    every listed identifier in order, lists again for the answer, and
    returns the new file list, two disabled buttons and the text
    "All files"; the fields of [self], the selection included, are left as
    they were. *)
Theorem delete_all_files_run :
  ∀ s,
    Files._delete_all_files ingest s
    = (inr [GrList (Files.file_names_of
                      (ingest_list_ingested ingest
                         (deleted_from ingest
                            (map doc_id (ingest_list_ingested ingest s.2)) s.2)));
            GrButton false; GrButton false; GrTextbox "All files"],
       (s.1,
        deleted_from ingest (map doc_id (ingest_list_ingested ingest s.2)) s.2),
       [CallListIngested]
         ++ map CallDelete (map doc_id (ingest_list_ingested ingest s.2))
         ++ [CallListIngested]).
Proof.
  intros s. unfold Files._delete_all_files.
  rewrite (ebind_returns _ _ s s (ingest_list_ingested ingest s.2)
             [CallListIngested]) by done.
  rewrite (ebind_returns _ _ s _ tt _ (delete_each_run ingest _ s)).
  by rewrite after_delete_run.
Qed.

Lemma deleted_from_cons (doc_id' : string) (rest : list string) (store : Store) :
  deleted_from ingest (doc_id' :: rest) store
  = deleted_from ingest rest (ingest_delete ingest doc_id' store).
Proof. reflexivity. Qed.

Lemma deleted_from_listing (doc_ids : list string) (store : Store) :
  delete_removes ingest →
  ingest_list_ingested ingest (deleted_from ingest doc_ids store)
  = filter (λ d, doc_id d ∉ doc_ids) (ingest_list_ingested ingest store).
Proof.
  intros Hdel. revert store. induction doc_ids as [|doc_id' rest IH]; intros store.
  - cbn. symmetry.
    induction (ingest_list_ingested ingest store) as [|d l IHl]; [done |].
    rewrite filter_cons_True by apply not_elem_of_nil. by rewrite IHl.
  - rewrite deleted_from_cons, IH, Hdel, list_filter_filter.
    apply list_filter_iff.
    intros d. rewrite not_elem_of_cons. tauto.
Qed.

Lemma filter_all_deleted (l : list IngestedDoc) (doc_ids : list string) :
  Forall (λ d, doc_id d ∈ doc_ids) l →
  filter (λ d, doc_id d ∉ doc_ids) l = [].
Proof.
  induction 1 as [|d l Hd _ IH]; [done |].
  rewrite filter_cons_False by (intros Hout; by apply Hout). exact IH.
Qed.

(** X18: over a service whose [delete] removes the documents of the given
    identifier, [_delete_all_files] leaves no document and returns the empty
    file list. *)
Theorem delete_all_files_empties :
  ∀ s,
    delete_removes ingest →
    ingest_list_ingested ingest (eff_state (Files._delete_all_files ingest s)).2 = []
    ∧ eff_outcome (Files._delete_all_files ingest s)
      = inr [GrList ∅; GrButton false; GrButton false; GrTextbox "All files"].
Proof.
  intros s Hdel. rewrite delete_all_files_run. unfold eff_state, eff_outcome.
  cbn [fst snd].
  assert (Hempty : ingest_list_ingested ingest
                     (deleted_from ingest
                        (map doc_id (ingest_list_ingested ingest s.2)) s.2) = []).
  { rewrite (deleted_from_listing _ _ Hdel). apply filter_all_deleted.
    apply Forall_forall. intros d Hd. by apply list_elem_of_fmap_2. }
  by rewrite Hempty.
Qed.

Lemma delete_matching_run (ingested : list IngestedDoc) (selected : option string) s :
  Forall well_formed ingested →
  Files.delete_matching ingest ingested selected s
  = (inr tt, (s.1, deleted_from ingest (selected_ids selected ingested) s.2),
     map CallDelete (selected_ids selected ingested)).
Proof.
  intros Hall. revert s. induction Hall as [|d rest Hd _ IH]; intros [self store].
  - by destruct selected.
  - cbn [Files.delete_matching]. destruct Hd as [Hfalsy | [name Hname]].
    + rewrite Hfalsy, IH. pose proof (truthy_dict_falsy _ Hfalsy) as Hnone.
      destruct selected as [sel|]; [| done].
      unfold selected_ids, matching_ids.
      by rewrite filter_cons_False by (rewrite Hnone; done).
    + destruct (truthy_dict_named _ _ Hname) as (m & -> & ->).
      destruct (decide (Some name = selected)) as [<- | Hne].
      * rewrite (ebind_returns _ _ _ (self, ingest_delete ingest (doc_id d) store)
                   tt [CallDelete (doc_id d)]) by done.
        rewrite IH. unfold selected_ids, matching_ids.
        by rewrite filter_cons_True by done.
      * rewrite IH. destruct selected as [sel|]; [| done].
        unfold selected_ids, matching_ids.
        by rewrite filter_cons_False by (rewrite Hname; congruence).
Qed.

Lemma delete_matching_app (good rest : list IngestedDoc)
    (selected : option string) s :
  Forall well_formed good →
  Files.delete_matching ingest (good ++ rest) selected s
  = (eff_outcome (Files.delete_matching ingest rest selected
                    (s.1, deleted_from ingest (selected_ids selected good) s.2)),
     eff_state (Files.delete_matching ingest rest selected
                  (s.1, deleted_from ingest (selected_ids selected good) s.2)),
     map CallDelete (selected_ids selected good)
       ++ eff_calls (Files.delete_matching ingest rest selected
                       (s.1, deleted_from ingest (selected_ids selected good) s.2))).
Proof.
  intros Hall. revert s. induction Hall as [|d good Hd _ IH]; intros [self store].
  - cbn [app]. replace (selected_ids selected []) with (@nil string)
      by by destruct selected.
    cbn. by destruct (Files.delete_matching ingest rest selected (self, store))
      as [[? ?] ?].
  - cbn [app Files.delete_matching]. destruct Hd as [Hfalsy | [name Hname]].
    + rewrite Hfalsy, IH. pose proof (truthy_dict_falsy _ Hfalsy) as Hnone.
      destruct selected as [sel|]; [| done].
      unfold selected_ids, matching_ids.
      by rewrite filter_cons_False by (rewrite Hnone; done).
    + destruct (truthy_dict_named _ _ Hname) as (m & -> & ->).
      destruct (decide (Some name = selected)) as [<- | Hne].
      * rewrite (ebind_returns _ _ _ (self, ingest_delete ingest (doc_id d) store)
                   tt [CallDelete (doc_id d)]) by done.
        rewrite IH. unfold selected_ids, matching_ids.
        by rewrite filter_cons_True by done.
      * rewrite IH. destruct selected as [sel|]; [| done].
        unfold selected_ids, matching_ids.
        by rewrite filter_cons_False by (rewrite Hname; congruence).
Qed.

(** X19: when every listed document has falsy metadata or a file name,
    [_delete_selected_file] deletes every document named like the selection,
    in the order of the listing (all pages of a file, not only the first),
    and nothing when no file is selected; it then lists the files again. *)
Theorem delete_selected_file_run :
  ∀ s,
    Forall well_formed (ingest_list_ingested ingest s.2) →
    eff_calls (Files._delete_selected_file ingest s)
    = [CallListIngested]
        ++ map CallDelete
             (selected_ids (_selected_filename s.1) (ingest_list_ingested ingest s.2))
        ++ [CallListIngested]
    ∧ eff_state (Files._delete_selected_file ingest s)
      = (s.1,
         deleted_from ingest
           (selected_ids (_selected_filename s.1) (ingest_list_ingested ingest s.2))
           s.2)
    ∧ ∃ files,
        eff_outcome (Files._delete_selected_file ingest s)
        = inr [GrList files; GrButton false; GrButton false; GrTextbox "All files"].
Proof.
  intros s Hall. unfold Files._delete_selected_file.
  rewrite (ebind_returns _ _ s s (_selected_filename s.1) []) by done.
  rewrite (ebind_returns _ _ s s (ingest_list_ingested ingest s.2)
             [CallListIngested]) by done.
  rewrite (ebind_returns _ _ s _ tt _ (delete_matching_run _ _ s Hall)).
  rewrite after_delete_run. unfold eff_calls, eff_state, eff_outcome.
  cbn [fst snd app]. split; [done |]. split; [done | by eexists].
Qed.

(** X20: [_delete_selected_file] stops at the first listed document with
    non-empty metadata and no "file_name": it raises [KeyError] there, and
    the matching documents listed before it have already been deleted. *)
Theorem delete_selected_file_partial :
  ∀ s (good rest : list IngestedDoc) (bad : IngestedDoc),
    ingest_list_ingested ingest s.2 = good ++ bad :: rest →
    Forall well_formed good →
    malformed bad →
    Files._delete_selected_file ingest s
    = (inl (KeyError "file_name"),
       (s.1, deleted_from ingest (selected_ids (_selected_filename s.1) good) s.2),
       [CallListIngested]
         ++ map CallDelete (selected_ids (_selected_filename s.1) good)).
Proof.
  intros s good rest bad Hlist Hgood (m & Hm & Hnone).
  unfold Files._delete_selected_file.
  rewrite (ebind_returns _ _ s s (_selected_filename s.1) []) by done.
  rewrite (ebind_returns _ _ s s (ingest_list_ingested ingest s.2)
             [CallListIngested]) by done.
  cbn [app]. rewrite Hlist.
  assert (Hrun : Files.delete_matching ingest (good ++ bad :: rest)
                   (_selected_filename s.1) s
                 = (inl (KeyError "file_name"),
                    (s.1, deleted_from ingest
                            (selected_ids (_selected_filename s.1) good) s.2),
                    map CallDelete (selected_ids (_selected_filename s.1) good))).
  { rewrite (delete_matching_app _ _ _ _ Hgood).
    cbn [Files.delete_matching]. rewrite Hm, Hnone.
    unfold eff_outcome, eff_state, eff_calls, eraise. cbn [fst snd].
    by rewrite app_nil_r. }
  by rewrite (ebind_raises _ _ _ _ _ _ Hrun).
Qed.

(** X21: [_delete_selected_file] answers with the text "All files" but
    leaves [_selected_filename] set.  Over a service whose [delete] removes
    the documents of the given identifier, with every document named, the
    next "Query Files" chat is therefore restricted to the empty identifier
    list. *)
Theorem delete_selected_file_keeps_selection :
  ∀ s (selected : string)
    (stream_chat : list ChatMessage → bool → option ContextFilter → CompletionGen)
    (retrieve_relevant : string → Z → Z → list Chunk)
    (message : string) (history : list Interaction),
    delete_removes ingest →
    _selected_filename s.1 = Some selected →
    Forall named (ingest_list_ingested ingest s.2) →
    (eff_state (Files._delete_selected_file ingest s)).1 = s.1
    ∧ service_calls
        (events
           (_chat
              (mkServices
                 (ingest_list_ingested ingest
                    (eff_state (Files._delete_selected_file ingest s)).2)
                 stream_chat retrieve_relevant)
              message history "Query Files"
              (eff_state (Files._delete_selected_file ingest s)).1))
      = [ListIngested;
         StreamChat (all_messages (_system_prompt s.1) message history) true
           (Some (mkContextFilter []))].
Proof.
  intros s selected stream_chat retrieve_relevant message history Hdel Hsel Hall.
  assert (Hwf : Forall well_formed (ingest_list_ingested ingest s.2)).
  { eapply Forall_impl; [exact Hall |]. intros d Hd. by right. }
  destruct (delete_selected_file_run s Hwf) as (_ & -> & _).
  cbn [fst snd]. split; [done |].
  rewrite Hsel. cbn [selected_ids].
  rewrite (deleted_from_listing _ _ Hdel).
  assert (Hother : Forall (named_other selected)
                     (filter (λ d, doc_id d ∉ matching_ids selected
                                                (ingest_list_ingested ingest s.2))
                        (ingest_list_ingested ingest s.2))).
  { apply Forall_forall. intros d [Hout Hin]%list_elem_of_filter.
    rewrite Forall_forall in Hall. destruct (Hall d Hin) as [name Hname].
    unfold doc_file_name in Hname.
    destruct (doc_metadata d) as [m|] eqn:Hm; [| done].
    exists m, name. split; [done |]. split; [done |].
    intros ->. apply Hout. unfold matching_ids.
    apply list_elem_of_fmap_2, list_elem_of_filter. split; [| done].
    unfold doc_file_name. by rewrite Hm. }
  rewrite (chat_query_selected
             (mkServices
                (filter (λ d, doc_id d ∉ matching_ids selected
                                           (ingest_list_ingested ingest s.2))
                   (ingest_list_ingested ingest s.2))
                stream_chat retrieve_relevant)
             message history s.1 selected (inr []) Hsel
             (collect_docs_ids_no_match _ selected [] s.1 Hother)).
  unfold events at 1. cbn [snd app].
  by rewrite !service_calls_cons_call, service_calls_yield_deltas.
Qed.

End DeleteHandlers.

(** ** The handlers on a list store *)

Section ListStore.

Lemma list_store_delete_removes : delete_removes list_store.
Proof. intros doc_id' store. reflexivity. Qed.

Lemma named_a_pdf : named a_pdf_page_1.
Proof. exists "a.pdf". by vm_compute. Qed.

Lemma well_formed_demo :
  Forall well_formed [a_pdf_page_1; no_metadata_doc].
Proof.
  constructor; [right; apply named_a_pdf |].
  constructor; [by left | constructor].
Qed.

Lemma malformed_page_only : malformed page_only_doc.
Proof. exists {[ "page_label" := "7" ]}. split; by vm_compute. Qed.

Lemma upload_file_replaces_witness :
  Forall well_formed
    (ingest_list_ingested list_store
       (demo_self None, [a_pdf_page_1; no_metadata_doc]).2)
  ∧ eff_calls (Files._upload_file list_store plain_name ["a.pdf"]
                 (demo_self None, [a_pdf_page_1; no_metadata_doc]))
    = [CallListIngested; CallDelete "doc-1"; CallBulkIngest [("a.pdf", "a.pdf")]].
Proof.
  assert (Hall : Forall well_formed
                   (ingest_list_ingested list_store
                      (demo_self None, [a_pdf_page_1; no_metadata_doc]).2)).
  { exact well_formed_demo. }
  split; [exact Hall |].
  exact (f_equal eff_calls
           (upload_file_replaces list_store plain_name ["a.pdf"]
              (demo_self None, [a_pdf_page_1; no_metadata_doc]) Hall)).
Defined.

Lemma upload_file_raises_first_witness :
  Exists malformed
    (ingest_list_ingested list_store
       (demo_self None, [a_pdf_page_1; page_only_doc]).2)
  ∧ Files._upload_file list_store plain_name ["a.pdf"]
      (demo_self None, [a_pdf_page_1; page_only_doc])
    = (inl (KeyError "file_name"),
       (demo_self None, [a_pdf_page_1; page_only_doc]), [CallListIngested]).
Proof.
  assert (Hex : Exists malformed
                  (ingest_list_ingested list_store
                     (demo_self None, [a_pdf_page_1; page_only_doc]).2)).
  { apply Exists_cons_tl, Exists_cons_hd. exact malformed_page_only. }
  split; [exact Hex |].
  exact (upload_file_raises_first list_store plain_name ["a.pdf"]
           (demo_self None, [a_pdf_page_1; page_only_doc]) Hex).
Defined.

Lemma delete_all_files_empties_witness :
  delete_removes list_store
  ∧ eff_outcome (Files._delete_all_files list_store
                   (demo_self (Some "a.pdf"), [a_pdf_page_1; no_metadata_doc]))
    = inr [GrList ∅; GrButton false; GrButton false; GrTextbox "All files"].
Proof.
  assert (Hdel : delete_removes list_store).
  { exact list_store_delete_removes. }
  split; [exact Hdel |].
  exact (proj2 (delete_all_files_empties list_store
                  (demo_self (Some "a.pdf"), [a_pdf_page_1; no_metadata_doc])
                  Hdel)).
Defined.

Lemma delete_selected_file_run_witness :
  Forall well_formed
    (ingest_list_ingested list_store
       (demo_self (Some "a.pdf"), [a_pdf_page_1; no_metadata_doc]).2)
  ∧ eff_calls (Files._delete_selected_file list_store
                 (demo_self (Some "a.pdf"), [a_pdf_page_1; no_metadata_doc]))
    = [CallListIngested; CallDelete "doc-1"; CallListIngested].
Proof.
  assert (Hall : Forall well_formed
                   (ingest_list_ingested list_store
                      (demo_self (Some "a.pdf"),
                       [a_pdf_page_1; no_metadata_doc]).2)).
  { exact well_formed_demo. }
  split; [exact Hall |].
  exact (proj1 (delete_selected_file_run list_store
                  (demo_self (Some "a.pdf"), [a_pdf_page_1; no_metadata_doc])
                  Hall)).
Defined.

Lemma delete_selected_file_partial_witness :
  (ingest_list_ingested list_store
     (demo_self (Some "a.pdf"), [a_pdf_page_1; page_only_doc; a_pdf_page_1]).2
   = [a_pdf_page_1] ++ page_only_doc :: [a_pdf_page_1]
   ∧ Forall well_formed [a_pdf_page_1]
   ∧ malformed page_only_doc)
  ∧ Files._delete_selected_file list_store
      (demo_self (Some "a.pdf"), [a_pdf_page_1; page_only_doc; a_pdf_page_1])
    = (inl (KeyError "file_name"),
       (demo_self (Some "a.pdf"), [page_only_doc]),
       [CallListIngested; CallDelete "doc-1"]).
Proof.
  assert (Hgood : Forall well_formed [a_pdf_page_1]).
  { constructor; [right; apply named_a_pdf | constructor]. }
  assert (Hbad : malformed page_only_doc).
  { exact malformed_page_only. }
  split; [split; [reflexivity | split; [exact Hgood | exact Hbad]] |].
  exact (delete_selected_file_partial list_store
           (demo_self (Some "a.pdf"),
            [a_pdf_page_1; page_only_doc; a_pdf_page_1])
           [a_pdf_page_1] [a_pdf_page_1] page_only_doc eq_refl Hgood Hbad).
Defined.

Lemma delete_selected_file_keeps_selection_witness :
  (delete_removes list_store
   ∧ _selected_filename (demo_self (Some "a.pdf"), [a_pdf_page_1]).1 = Some "a.pdf"
   ∧ Forall named
       (ingest_list_ingested list_store (demo_self (Some "a.pdf"), [a_pdf_page_1]).2))
  ∧ _selected_filename
      (eff_state (Files._delete_selected_file list_store
                    (demo_self (Some "a.pdf"), [a_pdf_page_1]))).1
    = Some "a.pdf".
Proof.
  assert (Hdel : delete_removes list_store).
  { exact list_store_delete_removes. }
  assert (Hall : Forall named
                   (ingest_list_ingested list_store
                      (demo_self (Some "a.pdf"), [a_pdf_page_1]).2)).
  { constructor; [apply named_a_pdf | constructor]. }
  split; [split; [exact Hdel | split; [reflexivity | exact Hall]] |].
  exact (f_equal _selected_filename
           (proj1 (delete_selected_file_keeps_selection list_store
                     (demo_self (Some "a.pdf"), [a_pdf_page_1]) "a.pdf"
                     (λ _ _ _, demo_gen) (λ _ _ _, []) "Hi" []
                     Hdel eq_refl Hall))).
Defined.

End ListStore.

(** ** The sidebar and the cached page *)

Section Page.

(** X22: the sidebar is shown exactly when the returned state is set; only
    the password "Private-gpt" changes the state, and submitting the same
    text twice brings the state back. *)
Theorem toggle_sidebar_twice :
  ∀ (state : bool) (input_text : string),
    visible (toggle_sidebar state input_text).1
    = (toggle_sidebar state input_text).2
    ∧ (toggle_sidebar (toggle_sidebar state input_text).2 input_text).2 = state
    ∧ ((toggle_sidebar state input_text).2 ≠ state
       ↔ input_text = "Private-gpt").
Proof.
  intros state input_text. unfold toggle_sidebar. cbn [fst snd visible].
  destruct (decide (input_text = "Private-gpt")) as [Heq | Hne].
  - split; [done |]. split; [apply negb_involutive |].
    split; [done |]. intros _. by destruct state.
  - split; [done |]. split; [done |]. split; [done | by intros ?].
Qed.

(** X23: [get_ui_blocks] builds the page at most once: whatever the cache
    holds, a call leaves it filled with the blocks it returns, and a second
    call, or a mount, returns those blocks without building again. *)
Theorem get_ui_blocks_cached :
  ∀ {Blocks : Type} (built : Blocks) (_ui_block : option Blocks) (path : string),
    ∃ blocks,
      eff_outcome (get_ui_blocks built _ui_block) = inr blocks
      ∧ eff_state (get_ui_blocks built _ui_block) = Some blocks
      ∧ get_ui_blocks built (Some blocks) = (inr blocks, Some blocks, [])
      ∧ mount_in_app built path (eff_state (get_ui_blocks built _ui_block))
        = (inr tt, Some blocks, [CallQueue; CallMountGradioApp path])
      ∧ eff_calls (get_ui_blocks built _ui_block)
        = match _ui_block with
          | Some _ => []
          | None => [CallBuildUiBlocks]
          end
      ∧ (_ui_block = None → blocks = built).
Proof.
  intros Blocks built [cached|] path.
  - exists cached. repeat split; try reflexivity. intros [=].
  - exists built. repeat split; reflexivity.
Qed.

End Page.
